(** * The Bankin connector (src/index.js): balance histories, normalizers, run

    A shallow embedding of the connector.  Promises are values of [Promise]
    (pending, fulfilled or rejected) and [await], written [let!], is their bind;
    JS objects used as dictionaries are [gmap]s; documents are records; the two module level
    variables of the source ([accesToken], [banks]) are passed explicitly. *)

From stdpp Require Import gmap strings list fin_maps pretty infinite.

Open Scope Z_scope.

(** ** JavaScript values and promises *)

(** The values that the fields computed with a fallback may hold: the
    primitive ones, and the function or object that a plain object inherits
    from [Object.prototype] under a name. *)
Inductive jsval :=
  | JUndefined
  | JNumber (n : Z)
  | JString (s : string)
  | JInherited (property : string).

Global Instance jsval_eq_dec : EqDecision jsval.
Proof. solve_decision. Defined.

(** [new Error(message)] *)
Record Error := { message : string }.

(** The error names of cozy-konnector-libs ([errors.LOGIN_FAILED], ...). *)
Module errors.
Definition LOGIN_FAILED : string := "LOGIN_FAILED".
Definition VENDOR_DOWN : string := "VENDOR_DOWN".
End errors.

(** The state in which a promise is left once the job queue has drained. *)
Inductive Promise (A : Type) :=
  | Pending
  | Fulfilled (a : A)
  | Rejected (e : Error).
Arguments Pending {A}.
Arguments Fulfilled {A} a.
Arguments Rejected {A} e.

(** [const x = await p; k x] inside an async function. *)
Definition await {A B} (p : Promise A) (k : A → Promise B) : Promise B :=
  match p with
  | Pending => Pending
  | Fulfilled a => k a
  | Rejected e => Rejected e
  end.

Notation "'let!' x ':=' p 'in' k" := (await p (fun x => k))
  (at level 10, x name, p at level 100, k at level 200,
   format "'let!'  x  :=  p  'in'  '//' k").

(** [Promise.all]: rejected as soon as one member is (the first one of the
    list stands for the first one in time), pending while a member is. *)
Fixpoint Promise_all {A} (ps : list (Promise A)) : Promise (list A) :=
  match ps with
  | [] => Fulfilled []
  | p :: ps' =>
      match p, Promise_all ps' with
      | Rejected e, _ => Rejected e
      | _, Rejected e => Rejected e
      | Pending, _ => Pending
      | _, Pending => Pending
      | Fulfilled a, Fulfilled l => Fulfilled (a :: l)
      end
  end.

(** What running an executor [async resolve => { ... }] leaves behind: the
    argument of its call to [resolve], if it made one, and the promise of the
    async function itself, which [new Promise] drops. *)
Record Executor (A : Type) := {
  resolved : option A;
  completion : Promise ()
}.
Arguments resolved {A} _.
Arguments completion {A} _.

(** [new Promise(executor)] for an executor that takes [resolve] only: the
    promise settles through [resolve] and through nothing else.  An async
    executor never throws synchronously, so the constructor never rejects. *)
Definition newPromise {A} (ex : Executor A) : Promise A :=
  match resolved ex with
  | Some a => Fulfilled a
  | None => Pending
  end.

(** The body shared by the four fetchers,
    [try { const response = await request(options); resolve(f(response)) }
     catch (error) { throw new Error(name) }]. *)
Definition tryRequest {R A} (response : Promise R) (f : R → A) (name : string)
  : Executor A :=
  match response with
  | Fulfilled r => {| resolved := Some (f r); completion := Fulfilled () |}
  | Rejected _ => {| resolved := None; completion := Rejected {| message := name |} |}
  | Pending => {| resolved := None; completion := Pending |}
  end.

(** ** Documents *)

(** [moment()]: the calendar date read by [fetchBalances]. *)
Record Moment := { moment_year : Z; moment_month : Z; moment_date : Z }.

(** moment's [zeroFill(number, targetLength)]. *)
Definition zeroFill (number : Z) (targetLength : nat) : string :=
  let absNumber := pretty (Z.abs number) in
  let zerosToFill := (targetLength - String.length absNumber)%nat in
  (if bool_decide (0 ≤ number) then "" else "-")
    +:+ String.concat "" (replicate zerosToFill "0") +:+ absNumber.

(** [now.format('YYYY-MM-DD')] *)
Definition format_YYYY_MM_DD (now : Moment) : string :=
  zeroFill (moment_year now) 4 +:+ "-" +:+ zeroFill (moment_month now) 2
    +:+ "-" +:+ zeroFill (moment_date now) 2.

Record Metadata := { version : Z }.

(** [relationships.account.data] *)
Record AccountData := { data_id : string; data_type : string }.

(** An io.cozy.bank.balancehistories document.  [_id] is [None] on a document
    that the store has not seen yet.  Balances are JSON numbers that the
    connector copies and never computes with; they are carried as integers. *)
Record BalanceHistory := {
  _id : option string;
  year : Z;
  balances : gmap string Z;
  metadata : Metadata;
  relationships : AccountData
}.

Global Instance Metadata_eq_dec : EqDecision Metadata.
Proof. solve_decision. Defined.
Global Instance AccountData_eq_dec : EqDecision AccountData.
Proof. solve_decision. Defined.
Global Instance BalanceHistory_eq_dec : EqDecision BalanceHistory.
Proof. solve_decision. Defined.

(** The normalized account of [formatAccounts]. *)
Record Account := {
  label : string;
  institutionLabel : jsval;
  balance : Z;
  type : jsval;
  number : Z;
  vendorId : Z
}.

(** An account as [reconciliator.save] returns it: the fetched fields and the
    identifier under which the store holds it. *)
Record SavedAccount := {
  account_id : string;
  account_fields : Account
}.

(** ** The persistence layer *)

(** A Mango selector with equality conditions only: field path and value. *)
Abbreviation Selector := (list (string * jsval)).

Record QueryOptions := { selector : Selector; limit : nat }.

Record Index := { index_doctype : string; index_fields : list string }.

(** [cozyClient.data], as far as [getBalanceHistory] uses it. *)
Record CozyData := {
  defineIndex : string → list string → Promise Index;
  query : Index → QueryOptions → Promise (list BalanceHistory)
}.

(** ** The balance history merger (lines 262-323) *)

Definition getEmptyBalanceHistory (year : Z) (accountId : string) : BalanceHistory :=
  {| _id := None;
     year := year;
     balances := ∅;
     metadata := {| version := 1 |};
     relationships := {| data_id := accountId; data_type := "io.cozy.bank.accounts" |} |}.

(** [const options = { selector: { year, ... : accountId }, limit: 1 }] *)
Definition balanceHistoryOptions (year : Z) (accountId : string) : QueryOptions :=
  {| selector := [("year", JNumber year);
                  ("relationships.account.data._id", JString accountId)];
     limit := 1 |}.

Definition getBalanceHistory (data : CozyData) (year : Z) (accountId : string)
  : Promise BalanceHistory :=
  let! index := defineIndex data "io.cozy.bank.balancehistories"
                  ["year"; "relationships.account.data._id"] in
  let options := balanceHistoryOptions year accountId in
  let! results := query data index options in
  match results with
  | balance :: _ => Fulfilled balance
  | [] => Fulfilled (getEmptyBalanceHistory year accountId)
  end.

(** [history.balances[todayAsString] = account.balance] *)
Definition mergeBalance (history : BalanceHistory) (todayAsString : string)
    (accountBalance : Z) : BalanceHistory :=
  {| _id := _id history;
     year := year history;
     balances := <[todayAsString := accountBalance]> (balances history);
     metadata := metadata history;
     relationships := relationships history |}.

Definition fetchBalances (data : CozyData) (now : Moment) (accounts : list SavedAccount)
  : Promise (list BalanceHistory) :=
  let todayAsString := format_YYYY_MM_DD now in
  let currentYear := moment_year now in
  Promise_all
    (map (fun account =>
            let! history := getBalanceHistory data currentYear (account_id account) in
            Fulfilled (mergeBalance history todayAsString
                         (balance (account_fields account))))
         accounts).

(** ** The store behind [cozyClient.data] and [updateOrCreate] *)

(** Modelled from the spec: the Persistence layer's content for the doctype
    io.cozy.bank.balancehistories, the stored documents in the order in which
    a query returns them. *)
Abbreviation Store := (list BalanceHistory).

(** Modelled from the spec: the field of a document that a selector condition
    or a key field names by its path (lodash's [get(doc, path)]). *)
Definition get (doc : BalanceHistory) (path : string) : jsval :=
  if decide (path = "_id") then from_option JString JUndefined (_id doc)
  else if decide (path = "year") then JNumber (year doc)
  else if decide (path = "metadata.version") then JNumber (version (metadata doc))
  else if decide (path = "relationships.account.data._id")
       then JString (data_id (relationships doc))
  else if decide (path = "relationships.account.data._type")
       then JString (data_type (relationships doc))
  else JUndefined.

(** Modelled from the spec: selection by equality; a document satisfies a
    selector when each of its conditions holds. *)
Definition satisfies (sel : Selector) (doc : BalanceHistory) : Prop :=
  Forall (fun c => get doc c.1 = c.2) sel.

Global Instance satisfies_dec sel doc : Decision (satisfies sel doc).
Proof. unfold satisfies. apply _. Defined.

(** Modelled from the spec: the Persistence Sink operation
    [query(docType, selector, limit) -> list of matching documents], which the
    source reaches through [cozyClient.data.defineIndex] and
    [cozyClient.data.query] of cozy-konnector-libs. *)
Definition cozyData (st : Store) : CozyData :=
  {| defineIndex := fun doctype fields =>
       Fulfilled {| index_doctype := doctype; index_fields := fields |};
     query := fun index options =>
       Fulfilled (take (limit options) (filter (satisfies (selector options)) st)) |}.

(** Modelled from the spec: the storage identifiers in use. *)
Definition identifiers (st : Store) : list string := omap _id st.

(** Modelled from the spec: a document as stored under an identifier. *)
Definition withId (id : string) (doc : BalanceHistory) : BalanceHistory :=
  {| _id := Some id;
     year := year doc;
     balances := balances doc;
     metadata := metadata doc;
     relationships := relationships doc |}.

(** Modelled from the spec: the write of an existing document, which keeps its
    storage identifier ([cozy.data.updateAttributes(doctype, id, entry)]). *)
Definition updateAttributes (id : string) (entry : BalanceHistory) (st : Store) : Store :=
  (fun doc => if decide (_id doc = Some id) then withId id entry else doc) <$> st.

(** Modelled from the spec: the write of a new document, which gets a freshly
    allocated storage identifier ([cozy.data.create(doctype, entry)]). *)
Definition create (entry : BalanceHistory) (st : Store) : Store :=
  st ++ [withId (fresh (identifiers st)) entry].

(** Modelled from the spec: the entry and a stored document agree on every
    key field. *)
Definition sameKey (matchingAttributes : list string) (entry doc : BalanceHistory) : Prop :=
  Forall (fun attr => get doc attr = get entry attr) matchingAttributes.

Global Instance sameKey_dec attrs entry doc : Decision (sameKey attrs entry doc).
Proof. unfold sameKey. apply _. Defined.

(** Modelled from the spec: the upsert of one entry, updated when a document
    read at the start has its key (existing documents keep their identifier),
    created otherwise.  A target without identifier cannot be written to and
    leaves the store as it is. *)
Definition upsert (existings : Store) (matchingAttributes : list string)
    (entry : BalanceHistory) (st : Store) : Store :=
  match list_find (sameKey matchingAttributes entry) existings with
  | Some (_, toUpdate) =>
      match _id toUpdate with
      | Some id => updateAttributes id entry st
      | None => st
      end
  | None => create entry st
  end.

(** Modelled from the spec: the entries are written one after the other
    (bluebird's [mapSeries]). *)
Fixpoint mapSeries (existings : Store) (matchingAttributes : list string)
    (entries : list BalanceHistory) (st : Store) : Store :=
  match entries with
  | [] => st
  | entry :: rest =>
      mapSeries existings matchingAttributes rest
        (upsert existings matchingAttributes entry st)
  end.

(** Modelled from the spec: the Persistence Sink operation
    [upsertByIdentifier(documents, docType, keyFields)], which is
    [updateOrCreate] of cozy-konnector-libs: the documents of the doctype are
    read once, then the entries are written one after the other. *)
Definition updateOrCreate (entries : list BalanceHistory) (doctype : string)
    (matchingAttributes : list string) (st : Store) : Promise Store :=
  Fulfilled (mapSeries st matchingAttributes entries st).

Definition saveBalances (balances : list BalanceHistory) (st : Store) : Promise Store :=
  updateOrCreate balances "io.cozy.bank.balancehistories" ["_id"] st.

(** The last two lines of [start]: the balances step of a run. *)
Definition balancesStep (now : Moment) (savedAccounts : list SavedAccount) (st : Store)
  : Promise Store :=
  let! balances := fetchBalances (cozyData st) now savedAccounts in
  saveBalances balances st.

(** ** The vendor's records and the normalizers (lines 145-260) *)

Record RawBank := { bank_id : Z; bank_name : string }.

(** [parentBank.banks] *)
Record ParentBank := { bank_list : list RawBank }.

Record Country := { parent_banks : list ParentBank }.

(** A raw account: [name], [bank.id], [balance], [type], [id]. *)
Record RawAccount := {
  raw_name : string;
  raw_bank_id : Z;
  raw_balance : Z;
  raw_type : string;
  raw_id : Z
}.

(** A raw transaction: [category.id], [date], [description],
    [raw_description], [currency_code], [account.id], [id], [amount]. *)
Record RawOperation := {
  op_category_id : Z;
  op_date : string;
  op_description : string;
  op_raw_description : string;
  op_currency_code : string;
  op_account_id : Z;
  op_id : Z;
  op_amount : Z
}.

(** A JS [Date]: [new Date(text)], or [new Date()] read at an instant. *)
Inductive JsDate :=
  | DateOf (text : string)
  | DateAt (instant : Z).

(** The normalized transaction of [formatOperations]. *)
Module Transaction.
Record t := {
  date : JsDate;
  label : string;
  originalLabel : string;
  type : string;
  automaticCategoryId : jsval;
  dateImport : JsDate;
  dateOperation : JsDate;
  currency : string;
  vendorAccountId : Z;
  vendorId : Z;
  amount : Z
}.
End Transaction.

(** An entry of ./operation-category-mapping. *)
Record CategoryEntry := { cozyCategoryId : string }.

(** The names of the properties that every plain object inherits from
    [Object.prototype]. *)
Definition inheritedProperties : list string :=
  ["constructor"; "__defineGetter__"; "__defineSetter__"; "hasOwnProperty";
   "__lookupGetter__"; "__lookupSetter__"; "isPrototypeOf"; "propertyIsEnumerable";
   "toString"; "valueOf"; "__proto__"; "toLocaleString"].

(** [key in table], for a plain object with the own entries [table] and a
    string key: an own entry, or an inherited property. *)
Definition hasProperty (table : gmap string string) (key : string) : bool :=
  bool_decide (is_Some (table !! key) ∨ key ∈ inheritedProperties).

(** [table[key]]: the own entry, else what is inherited under this name, else
    undefined. *)
Definition readProperty (table : gmap string string) (key : string) : jsval :=
  match table !! key with
  | Some value => JString value
  | None => if decide (key ∈ inheritedProperties) then JInherited key else JUndefined
  end.

(** The bank table of [formatBanks]: [banks[bank.id] = bank]. *)
Definition formatBanks (countries : list Country) : gmap Z RawBank :=
  foldl (fun banks country =>
    foldl (fun banks parentBank =>
      foldl (fun banks bank => <[bank_id bank := bank]> banks)
            banks (bank_list parentBank))
          banks (parent_banks country))
        ∅ countries.

Section Normalizers.

(** The two tables that index.js requires from ./account-type-mapping and
    ./operation-category-mapping are parameters.  A table is the finite map of
    the own entries of the exported object, a plain object, from the vendor's
    code to the normalized code.  A category identifier and a bank identifier
    are numbers, and a number names no property that an object inherits, so
    for them [code in table] is [table !! code] being defined; a type code is
    a string, for which [in] and the read go through [hasProperty] and
    [readProperty]. *)
Variable accountTypeMapping : gmap string string.
Variable operationCategoryMapping : gmap Z CategoryEntry.

(** The callback of [formatAccounts]; [banks] is the module variable filled
    by [start]. *)
Definition formatAccount (banks : gmap Z RawBank) (account : RawAccount) : Account :=
  let bank :=
    match banks !! raw_bank_id account with
    | Some found => JString (bank_name found)
    | None => JString "none"
    end in
  {| label := raw_name account;
     institutionLabel := bank;
     balance := raw_balance account;
     type :=
       if hasProperty accountTypeMapping (raw_type account)
       then readProperty accountTypeMapping (raw_type account)
       else JString "none";
     number := raw_id account;
     vendorId := raw_id account |}.

Definition formatAccounts (banks : gmap Z RawBank) (accounts : list RawAccount)
  : list Account :=
  map (formatAccount banks) accounts.

(** The callback of [formatOperations]; [instant] is what [new Date()] reads
    when the callback runs. *)
Definition formatOperation (instant : Z) (operation : RawOperation) : Transaction.t :=
  let category :=
    match operationCategoryMapping !! op_category_id operation with
    | Some entry => JString (cozyCategoryId entry)
    | None => JNumber 0
    end in
  {| Transaction.date := DateOf (op_date operation);
     Transaction.label := op_description operation;
     Transaction.originalLabel := op_raw_description operation;
     Transaction.type := "none";
     Transaction.automaticCategoryId := category;
     Transaction.dateImport := DateAt instant;
     Transaction.dateOperation := DateOf (op_date operation);
     Transaction.currency := op_currency_code operation;
     Transaction.vendorAccountId := op_account_id operation;
     Transaction.vendorId := op_id operation;
     Transaction.amount := op_amount operation |}.

(** [clock i] is the instant read for the [i]-th operation. *)
Definition formatOperations (clock : nat → Z) (operations : list RawOperation)
  : list Transaction.t :=
  imap (fun i operation => formatOperation (clock i) operation) operations.

End Normalizers.

(** ** The fetchers and the run (lines 35-237) *)

Definition baseUrl : string := "https://sync.bankin.com/v2".
Definition bankinVersion : string := "2018-06-15".

(** The account information handed to [start]. *)
Record Fields := {
  client_id : string;
  client_secret : string;
  email : string;
  password : string;
  bankinDevice : string
}.

Record RequestOptions := {
  url : string;
  qs : list (string * string);
  method : string;
  headers : list (string * string)
}.

(** The body of a successful authentication. *)
Record Tokens := { access_token : string }.

(** [request(options)]: the promise of the decoded body, one oracle for each
    kind of body ([response] for the tokens, [response.resources] for the
    three lists). *)
Record Request := {
  requestTokens : RequestOptions → Promise Tokens;
  requestBanks : RequestOptions → Promise (list Country);
  requestAccounts : RequestOptions → Promise (list RawAccount);
  requestOperations : RequestOptions → Promise (list RawOperation)
}.

(** What a run meets outside the connector: the vendor, the reconciliator of
    cozy-doctypes ([reconciliator.save], of which [start] keeps the saved
    accounts), the instants read by [new Date()] (for the [j]-th operation of
    the [i]-th account) and the date read by [moment()]. *)
Record World := {
  request : Request;
  save : list Account → list Transaction.t → Promise (list SavedAccount);
  dateNow : nat → nat → Z;
  momentNow : Moment
}.

Definition authenticateOptions (fields : Fields) : RequestOptions :=
  {| url := baseUrl +:+ "/authenticate";
     qs := [("client_id", client_id fields);
            ("client_secret", client_secret fields);
            ("email", email fields);
            ("password", password fields)];
     method := "POST";
     headers := [("bankin-version", bankinVersion);
                 ("bankin-device", bankinDevice fields)] |}.

Definition authenticate (w : World) (fields : Fields) : Promise Tokens :=
  newPromise
    (tryRequest (requestTokens (request w) (authenticateOptions fields))
                (fun response => response) errors.LOGIN_FAILED).

Definition fetchBanks (w : World) (fields : Fields) : Promise (gmap Z RawBank) :=
  let options :=
    {| url := baseUrl +:+ "/banks";
       qs := [("client_id", client_id fields);
              ("client_secret", client_secret fields);
              ("limit", "200")];
       method := "GET";
       headers := [("bankin-version", bankinVersion)] |} in
  newPromise (tryRequest (requestBanks (request w) options) formatBanks errors.VENDOR_DOWN).

Section Run.

Variable accountTypeMapping : gmap string string.
Variable operationCategoryMapping : gmap Z CategoryEntry.

Definition fetchAccounts (w : World) (fields : Fields) (accesToken : string)
    (banks : gmap Z RawBank) : Promise (list Account) :=
  let options :=
    {| url := baseUrl +:+ "/accounts";
       qs := [("client_id", client_id fields);
              ("client_secret", client_secret fields);
              ("limit", "200")];
       method := "GET";
       headers := [("bankin-version", bankinVersion);
                   ("authorization", "Bearer " +:+ accesToken)] |} in
  newPromise (tryRequest (requestAccounts (request w) options)
                         (formatAccounts accountTypeMapping banks)
                         errors.VENDOR_DOWN).

Definition fetchOperations (w : World) (fields : Fields) (accesToken : string)
    (clock : nat → Z) (account : Account) : Promise (list Transaction.t) :=
  let options :=
    {| url := baseUrl +:+ "/accounts/" +:+ pretty (vendorId account) +:+ "/transactions";
       qs := [("client_id", client_id fields);
              ("client_secret", client_secret fields);
              ("limit", "200")];
       method := "GET";
       headers := [("bankin-version", bankinVersion);
                   ("authorization", "Bearer " +:+ accesToken)] |} in
  newPromise (tryRequest (requestOperations (request w) options)
                         (formatOperations operationCategoryMapping clock)
                         errors.VENDOR_DOWN).

(** [for (let account of accounts) { ... allOperations = [...] }], from the
    [i]-th account on. *)
Fixpoint fetchAllOperations (w : World) (fields : Fields) (accesToken : string)
    (i : nat) (accounts : list Account) (allOperations : list Transaction.t)
  : Promise (list Transaction.t) :=
  match accounts with
  | [] => Fulfilled allOperations
  | account :: rest =>
      let! operations := fetchOperations w fields accesToken (dateNow w i) account in
      fetchAllOperations w fields accesToken (S i) rest (allOperations ++ operations)
  end.

(** [start], on the store of balance histories, which it returns as the
    run leaves it. *)
Definition start (w : World) (fields : Fields) (st : Store) : Promise Store :=
  let! tokens := authenticate w fields in
  let accesToken := access_token tokens in
  let! banks := fetchBanks w fields in
  let! accounts := fetchAccounts w fields accesToken banks in
  let! allOperations := fetchAllOperations w fields accesToken 0 accounts [] in
  let! savedAccounts := save w accounts allOperations in
  let! balances := fetchBalances (cozyData st) (momentNow w) savedAccounts in
  saveBalances balances st.

End Run.

(** ** Notions used by the statements *)

(** Every stored document has a storage identifier and no two share one. *)
Definition store_wf (st : Store) : Prop :=
  Forall (fun doc => is_Some (_id doc)) st ∧ NoDup (_id <$> st).

Global Instance store_wf_dec st : Decision (store_wf st).
Proof. unfold store_wf. apply _. Defined.

(** The documents of the store that the lookup for a year and an account
    selects, in the order of the store. *)
Definition matching (st : Store) (year : Z) (accountId : string) : list BalanceHistory :=
  filter (satisfies (selector (balanceHistoryOptions year accountId))) st.

(** ** The scenarios of the specification *)

Definition accountRef (accountId : string) : AccountData :=
  {| data_id := accountId; data_type := "io.cozy.bank.accounts" |}.

(** The balance history of 2024 for the account stored as S1. *)
Definition history2024 : BalanceHistory :=
  {| _id := Some "h2024";
     year := 2024;
     balances := {[ "2024-01-01" := 90 ]};
     metadata := {| version := 1 |};
     relationships := accountRef "S1" |}.

(** A second document of 2024 for S1, as an anomalous store may hold. *)
Definition history2024bis : BalanceHistory :=
  {| _id := Some "h2024bis";
     year := 2024;
     balances := {[ "2024-02-02" := 7 ]};
     metadata := {| version := 1 |};
     relationships := accountRef "S1" |}.

Definition savedAccount (accountId : string) (vendor amount : Z) : SavedAccount :=
  {| account_id := accountId;
     account_fields :=
       {| label := "Compte"; institutionLabel := JString "none"; balance := amount;
          type := JString "none"; number := vendor; vendorId := vendor |} |}.

Definition june15 : Moment :=
  {| moment_year := 2024; moment_month := 6; moment_date := 15 |}.

Definition january1 : Moment :=
  {| moment_year := 2025; moment_month := 1; moment_date := 1 |}.

(** A category table and an account type table with one entry each. *)
Definition oneCategory : gmap Z CategoryEntry :=
  {[ 270 := {| cozyCategoryId := "400110" |} ]}.

Definition oneAccountType : gmap string string :=
  {[ "checking" := "Checking" ]}.

Definition rawOperation (category : Z) : RawOperation :=
  {| op_category_id := category;
     op_date := "2024-06-14";
     op_description := "Boulangerie";
     op_raw_description := "CB BOULANGERIE 14/06";
     op_currency_code := "EUR";
     op_account_id := 1;
     op_id := 7001;
     op_amount := -3 |}.

Definition rawAccount (kind : string) (bank : Z) : RawAccount :=
  {| raw_name := "Compte"; raw_bank_id := bank; raw_balance := 100;
     raw_type := kind; raw_id := 1 |}.

Definition oneCountry : list Country :=
  [{| parent_banks := [{| bank_list := [{| bank_id := 408; bank_name := "Banque" |}] |}] |}].

Definition someFields : Fields :=
  {| client_id := "id"; client_secret := "secret"; email := "user@example.org";
     password := "wrong"; bankinDevice := "device" |}.

(** A run in which the vendor rejects the credentials: the authentication
    request is rejected with the status error of the HTTP client. *)
Definition credentialsRejected : World :=
  {| request :=
       {| requestTokens := fun _ => Rejected {| message := "StatusCodeError: 401" |};
          requestBanks := fun _ => Fulfilled oneCountry;
          requestAccounts := fun _ => Fulfilled [];
          requestOperations := fun _ => Fulfilled [] |};
     save := fun _ _ => Fulfilled [];
     dateNow := fun _ _ => 0;
     momentNow := june15 |}.

(** A run in which the vendor accepts them. *)
Definition credentialsAccepted : World :=
  {| request :=
       {| requestTokens := fun _ => Fulfilled {| access_token := "token" |};
          requestBanks := fun _ => Fulfilled oneCountry;
          requestAccounts := fun _ => Fulfilled [rawAccount "checking" 408];
          requestOperations := fun _ => Fulfilled [rawOperation 270] |};
     save := fun accounts _ =>
       Fulfilled (map (fun account => {| account_id := "S1"; account_fields := account |})
                      accounts);
     dateNow := fun _ _ => 0;
     momentNow := june15 |}.

(** ** Further notions used by the statements *)

(** The banks of the fetched countries, in the order in which [formatBanks]
    visits them: country by country, parent bank by parent bank. *)
Definition allBanks (countries : list Country) : list RawBank :=
  countries ≫= (fun country => parent_banks country ≫= bank_list).

(** The [options] of [fetchBanks], of [fetchAccounts] and of
    [fetchOperations]. *)
Definition banksOptions (fields : Fields) : RequestOptions :=
  {| url := baseUrl +:+ "/banks";
     qs := [("client_id", client_id fields);
            ("client_secret", client_secret fields);
            ("limit", "200")];
     method := "GET";
     headers := [("bankin-version", bankinVersion)] |}.

Definition accountsOptions (fields : Fields) (accesToken : string) : RequestOptions :=
  {| url := baseUrl +:+ "/accounts";
     qs := [("client_id", client_id fields);
            ("client_secret", client_secret fields);
            ("limit", "200")];
     method := "GET";
     headers := [("bankin-version", bankinVersion);
                 ("authorization", "Bearer " +:+ accesToken)] |}.

Definition operationsOptions (fields : Fields) (accesToken : string) (account : Account)
  : RequestOptions :=
  {| url := baseUrl +:+ "/accounts/" +:+ pretty (vendorId account) +:+ "/transactions";
     qs := [("client_id", client_id fields);
            ("client_secret", client_secret fields);
            ("limit", "200")];
     method := "GET";
     headers := [("bankin-version", bankinVersion);
                 ("authorization", "Bearer " +:+ accesToken)] |}.

(** The history that the callback of [fetchBalances] returns for an account,
    from the history that the lookup gave. *)
Definition todaysHistory (now : Moment) (account : SavedAccount) (history : BalanceHistory)
  : BalanceHistory :=
  mergeBalance history (format_YYYY_MM_DD now) (balance (account_fields account)).

(** Every account of the run has a document of the current year whose balance
    for today is the account's. *)
Definition recorded (now : Moment) (accounts : list SavedAccount) (st : Store) : Prop :=
  ∀ account, account ∈ accounts →
    ∃ doc, head (matching st (moment_year now) (account_id account)) = Some doc
           ∧ is_Some (_id doc)
           ∧ balances doc !! format_YYYY_MM_DD now = Some (balance (account_fields account)).

(** A run in which the vendor accepts the credentials and then fails on the
    banks. *)
Definition banksDown : World :=
  {| request :=
       {| requestTokens := fun _ => Fulfilled {| access_token := "token" |};
          requestBanks := fun _ => Rejected {| message := "StatusCodeError: 503" |};
          requestAccounts := fun _ => Fulfilled [rawAccount "checking" 408];
          requestOperations := fun _ => Fulfilled [rawOperation 270] |};
     save := fun accounts _ =>
       Fulfilled (map (fun account => {| account_id := "S1"; account_fields := account |})
                      accounts);
     dateNow := fun _ _ => 0;
     momentNow := june15 |}.

(** A run in which the vendor fails on the transactions of the account 2. *)
Definition operationsDown : World :=
  {| request :=
       {| requestTokens := fun _ => Fulfilled {| access_token := "token" |};
          requestBanks := fun _ => Fulfilled oneCountry;
          requestAccounts := fun _ => Fulfilled [rawAccount "checking" 408];
          requestOperations := fun options =>
            if decide (url options = baseUrl +:+ "/accounts/2/transactions")
            then Rejected {| message := "StatusCodeError: 503" |}
            else Fulfilled [rawOperation 270] |};
     save := fun accounts _ => Fulfilled [];
     dateNow := fun i j => Z.of_nat i * 1000 + Z.of_nat j;
     momentNow := june15 |}.

Definition normalizedAccount (vendor : Z) : Account :=
  {| label := "Compte"; institutionLabel := JString "none"; balance := 100;
     type := JString "none"; number := vendor; vendorId := vendor |}.

(** A persistence layer that answers for the account S1 and whose queries
    fail for every other account. *)
Definition queriesDown : CozyData :=
  {| defineIndex := fun doctype fields =>
       Fulfilled {| index_doctype := doctype; index_fields := fields |};
     query := fun index options =>
       if decide (selector options = selector (balanceHistoryOptions 2024 "S1"))
       then Fulfilled [history2024]
       else Rejected {| message := "ECONNREFUSED" |} |}.

(** The entry that [fetchBalances] hands to [saveBalances] for an account, on
    a store. *)
Definition todaysEntry (now : Moment) (st : Store) (account : SavedAccount)
  : BalanceHistory :=
  todaysHistory now account
    (default (getEmptyBalanceHistory (moment_year now) (account_id account))
             (head (matching st (moment_year now) (account_id account)))).

(** Two saved accounts with one storage identifier, as a reconciliator at
    fault may return them. *)
Definition twins : list SavedAccount :=
  [savedAccount "S2" 2 50; savedAccount "S2" 2 70].

(** * Properties *)

(** ** Promises *)

Lemma Promise_all_Fulfilled {A B} (f : A → B) (l : list A) :
  Promise_all (map (fun a => Fulfilled (f a)) l) = Fulfilled (map f l).
Proof.
  induction l as [|a l IH]; simpl; [done|]. by rewrite IH.
Qed.

(** ** The lookup *)

Lemma satisfies_balanceHistoryOptions (y : Z) (a : string) (doc : BalanceHistory) :
  satisfies (selector (balanceHistoryOptions y a)) doc
  ↔ year doc = y ∧ data_id (relationships doc) = a.
Proof.
  unfold satisfies, balanceHistoryOptions; simpl.
  rewrite !Forall_cons, Forall_nil. unfold get; simpl.
  split.
  - intros (Hy & Ha & _). split; congruence.
  - intros [-> ->]. done.
Qed.

Lemma matching_spec (st : Store) (y : Z) (a : string) (doc : BalanceHistory) :
  doc ∈ matching st y a
  ↔ doc ∈ st ∧ year doc = y ∧ data_id (relationships doc) = a.
Proof.
  unfold matching. rewrite list_elem_of_filter, satisfies_balanceHistoryOptions.
  tauto.
Qed.

Lemma getBalanceHistory_query (data : CozyData) (y : Z) (a : string)
    (index : Index) (results : list BalanceHistory) :
  defineIndex data "io.cozy.bank.balancehistories"
    ["year"; "relationships.account.data._id"] = Fulfilled index →
  query data index (balanceHistoryOptions y a) = Fulfilled results →
  getBalanceHistory data y a
  = Fulfilled (default (getEmptyBalanceHistory y a) (head results)).
Proof.
  intros Hi Hq. unfold getBalanceHistory. rewrite Hi; simpl. rewrite Hq; simpl.
  by destruct results.
Qed.

Lemma getBalanceHistory_cozyData (st : Store) (y : Z) (a : string) :
  getBalanceHistory (cozyData st) y a
  = Fulfilled (default (getEmptyBalanceHistory y a) (head (matching st y a))).
Proof.
  erewrite getBalanceHistory_query; [|reflexivity|reflexivity].
  unfold matching. simpl.
  by destruct (filter _ st).
Qed.

Lemma fetchBalances_cozyData (st : Store) (now : Moment) (accounts : list SavedAccount) :
  fetchBalances (cozyData st) now accounts
  = Fulfilled
      (map (fun account =>
              mergeBalance
                (default (getEmptyBalanceHistory (moment_year now) (account_id account))
                         (head (matching st (moment_year now) (account_id account))))
                (format_YYYY_MM_DD now) (balance (account_fields account)))
           accounts).
Proof.
  unfold fetchBalances. rewrite <- Promise_all_Fulfilled. f_equal.
  apply map_ext. intros account. by rewrite getBalanceHistory_cozyData.
Qed.

(** ** The writes *)

Lemma get_id (doc : BalanceHistory) (id : string) :
  get doc "_id" = JString id ↔ _id doc = Some id.
Proof.
  unfold get; simpl. destruct (_id doc); simpl; split; congruence.
Qed.

Lemma get_id_mergeBalance (h : BalanceHistory) (today : string) (b : Z) :
  get (mergeBalance h today b) "_id" = get h "_id".
Proof. reflexivity. Qed.

Lemma identifiers_elem_of (st : Store) (id : string) :
  id ∈ identifiers st ↔ ∃ doc, doc ∈ st ∧ _id doc = Some id.
Proof. unfold identifiers. by rewrite list_elem_of_omap. Qed.

Lemma identifiers_updateAttributes (id : string) (entry : BalanceHistory) (st : Store) :
  identifiers (updateAttributes id entry st) = identifiers st.
Proof.
  unfold identifiers, updateAttributes.
  induction st as [|doc st IH]; csimpl; [done|].
  rewrite IH. destruct (decide (_id doc = Some id)) as [Heq|]; simpl; [|done].
  by rewrite Heq.
Qed.

Lemma identifiers_upsert (existings : Store) (attrs : list string)
    (entry : BalanceHistory) (st : Store) :
  identifiers st ⊆ identifiers (upsert existings attrs entry st).
Proof.
  unfold upsert.
  destruct (list_find _ existings) as [[j toUpdate]|].
  - destruct (_id toUpdate); [by rewrite identifiers_updateAttributes|done].
  - unfold create, identifiers. rewrite omap_app. set_solver.
Qed.

(** A write whose target has another identifier leaves a document where it
    is. *)
Lemma upsert_keeps (existings : Store) (attrs : list string)
    (entry : BalanceHistory) (st : Store) (i : nat) (doc : BalanceHistory) :
  st !! i = Some doc →
  (∀ j toUpdate, list_find (sameKey attrs entry) existings = Some (j, toUpdate) →
                 _id toUpdate ≠ _id doc) →
  upsert existings attrs entry st !! i = Some doc.
Proof.
  intros Hi Hother. unfold upsert.
  destruct (list_find _ existings) as [[j toUpdate]|] eqn:Hfind.
  - specialize (Hother j toUpdate eq_refl).
    destruct (_id toUpdate) as [id|]; [|done].
    unfold updateAttributes. rewrite list_lookup_fmap, Hi; simpl.
    destruct (decide (_id doc = Some id)); [congruence|done].
  - unfold create. by apply lookup_app_l_Some.
Qed.

Lemma mapSeries_keeps (existings : Store) (attrs : list string)
    (entries : list BalanceHistory) (st : Store) (i : nat) (doc : BalanceHistory) :
  st !! i = Some doc →
  (∀ entry j toUpdate, entry ∈ entries →
     list_find (sameKey attrs entry) existings = Some (j, toUpdate) →
     _id toUpdate ≠ _id doc) →
  mapSeries existings attrs entries st !! i = Some doc.
Proof.
  revert st. induction entries as [|entry rest IH]; intros st Hi Hother; simpl.
  - done.
  - apply IH.
    + apply upsert_keeps; [done|]. intros j u. apply Hother. by left.
    + intros e j u He. apply Hother. by right.
Qed.

(** An entry that matches no document read at the start is created, under an
    identifier that was not in use, and later writes leave it alone. *)
Lemma mapSeries_creates (existings : Store) (attrs : list string)
    (entries : list BalanceHistory) (st : Store) (entry : BalanceHistory) :
  entry ∈ entries →
  list_find (sameKey attrs entry) existings = None →
  identifiers existings ⊆ identifiers st →
  ∃ id, (id ∉ identifiers existings)
        ∧ withId id entry ∈ mapSeries existings attrs entries st.
Proof.
  revert st. induction entries as [|e rest IH]; intros st Hin Hnone Hsub.
  - by apply elem_of_nil in Hin.
  - simpl. apply elem_of_cons in Hin as [->|Hin].
    + exists (fresh (identifiers st)).
      assert (Hfresh : fresh (identifiers st) ∉ identifiers existings).
      { intros Hid. apply (infinite_is_fresh (identifiers st)). by apply Hsub. }
      split; [done|].
      unfold upsert at 1. rewrite Hnone. unfold create.
      apply list_elem_of_lookup. exists (length st).
      apply mapSeries_keeps.
      * by rewrite lookup_app_r, Nat.sub_diag by lia.
      * intros e' j u _ Hfind Hid. simpl in Hid. apply Hfresh.
        apply list_find_Some in Hfind as (Hj & _ & _).
        apply identifiers_elem_of. exists u. split; [|done].
        apply list_elem_of_lookup. by exists j.
    + apply IH; [done|done|].
      etrans; [done|]. apply identifiers_upsert.
Qed.

(** What [fetchBalances] hands to [saveBalances] for one account. *)
Lemma balancesStep_cozyData (now : Moment) (accounts : list SavedAccount) (st : Store) :
  balancesStep now accounts st
  = Fulfilled
      (mapSeries st ["_id"]
         (map (fun account =>
                 mergeBalance
                   (default (getEmptyBalanceHistory (moment_year now) (account_id account))
                            (head (matching st (moment_year now) (account_id account))))
                   (format_YYYY_MM_DD now) (balance (account_fields account)))
              accounts)
         st).
Proof.
  unfold balancesStep. by rewrite fetchBalances_cozyData.
Qed.

(** In a well-formed store, two documents with one identifier are one. *)
Lemma store_wf_same_id (st : Store) (d1 d2 : BalanceHistory) :
  store_wf st → d1 ∈ st → d2 ∈ st → _id d1 = _id d2 → d1 = d2.
Proof.
  intros [_ Hnodup] H1 H2 Heq.
  apply list_elem_of_lookup in H1 as [i Hi], H2 as [j Hj].
  assert (i = j) as ->; [|congruence].
  apply (NoDup_lookup (_id <$> st) i j (_id d1)); [done| |].
  - by rewrite list_lookup_fmap, Hi.
  - by rewrite list_lookup_fmap, Hj, Heq.
Qed.

(** The entry of an account targets a stored document of the looked-up year
    and account only. *)
Lemma entry_target (st : Store) (y : Z) (a today : string) (b : Z)
    (j : nat) (toUpdate : BalanceHistory) :
  store_wf st →
  list_find
    (sameKey ["_id"]
       (mergeBalance (default (getEmptyBalanceHistory y a) (head (matching st y a)))
                     today b))
    st = Some (j, toUpdate) →
  toUpdate ∈ st ∧ year toUpdate = y ∧ data_id (relationships toUpdate) = a.
Proof.
  intros Hwf Hfind.
  apply list_find_Some in Hfind as (Hj & Hkey & _).
  assert (Hu : toUpdate ∈ st) by (apply list_elem_of_lookup; eauto).
  split; [done|].
  unfold sameKey in Hkey. rewrite Forall_cons in Hkey. destruct Hkey as [Hkey _].
  rewrite get_id_mergeBalance in Hkey.
  destruct Hwf as [Hsome Hnodup].
  destruct (proj1 (Forall_forall _ _) Hsome toUpdate Hu) as [id Hid].
  apply get_id in Hid as Hget. rewrite Hget in Hkey. symmetry in Hkey.
  apply get_id in Hkey.
  destruct (matching st y a) as [|found rest] eqn:Hm; simpl in Hkey; [done|].
  assert (Hin : found ∈ matching st y a) by (rewrite Hm; left).
  apply matching_spec in Hin as (Hfound & Hy & Ha).
  assert (toUpdate = found) as ->; [|done].
  apply (store_wf_same_id st); [done|done|done|congruence].
Qed.

(** An entry without identifier has the key of no document of a well-formed
    store. *)
Lemma no_target_without_id (st : Store) (entry : BalanceHistory) :
  store_wf st → _id entry = None →
  list_find (sameKey ["_id"] entry) st = None.
Proof.
  intros [Hsome _] Hnone. apply list_find_None.
  apply Forall_forall. intros doc Hdoc Hkey.
  unfold sameKey in Hkey. rewrite Forall_cons in Hkey. destruct Hkey as [Hkey _].
  destruct (proj1 (Forall_forall _ _) Hsome doc Hdoc) as [id Hid].
  apply get_id in Hid. rewrite Hid in Hkey.
  unfold get in Hkey; simpl in Hkey. by rewrite Hnone in Hkey.
Qed.

(** The run of the balances step leaves where it is every stored document
    that the lookups of the run do not select. *)
Lemma balancesStep_keeps (now : Moment) (accounts : list SavedAccount) (st : Store)
    (i : nat) (doc : BalanceHistory) :
  store_wf st →
  st !! i = Some doc →
  year doc ≠ moment_year now →
  ∃ st', balancesStep now accounts st = Fulfilled st' ∧ st' !! i = Some doc.
Proof.
  intros Hwf Hi Hyear. rewrite balancesStep_cozyData. eexists; split; [done|].
  apply mapSeries_keeps; [done|].
  intros entry j toUpdate Hentry Hfind Hid.
  apply list_elem_of_fmap in Hentry as (account & -> & _).
  apply entry_target in Hfind as (Hu & Hy & _); [|done].
  assert (toUpdate = doc) as ->; [|done].
  apply (store_wf_same_id st); [done|done| |done].
  apply list_elem_of_lookup. eauto.
Qed.

(** The run of the balances step creates the document of an account for
    which the lookup finds none. *)
Lemma balancesStep_creates (now : Moment) (accounts : list SavedAccount) (st : Store)
    (account : SavedAccount) :
  store_wf st →
  account ∈ accounts →
  matching st (moment_year now) (account_id account) = [] →
  ∃ st' id,
    balancesStep now accounts st = Fulfilled st'
    ∧ (id ∉ identifiers st)
    ∧ withId id
        (mergeBalance (getEmptyBalanceHistory (moment_year now) (account_id account))
           (format_YYYY_MM_DD now) (balance (account_fields account))) ∈ st'.
Proof.
  intros Hwf Hin Hnone. rewrite balancesStep_cozyData.
  set (entry := mergeBalance _ _ _).
  destruct (mapSeries_creates st ["_id"]
              (map (fun account =>
                 mergeBalance
                   (default (getEmptyBalanceHistory (moment_year now) (account_id account))
                            (head (matching st (moment_year now) (account_id account))))
                   (format_YYYY_MM_DD now) (balance (account_fields account)))
                 accounts) st entry) as (id & Hfresh & Hcreated).
  - apply list_elem_of_fmap. exists account. split; [|done].
    by rewrite Hnone.
  - by apply no_target_without_id.
  - done.
  - eexists _, id. split; [reflexivity|]. by split.
Qed.

(** ** The balance history merger *)

Example format_june15 : format_YYYY_MM_DD june15 = "2024-06-15".
Proof. reflexivity. Qed.

Example format_january1 : format_YYYY_MM_DD january1 = "2025-01-01".
Proof. reflexivity. Qed.

(** C1.  The merge is idempotent: for every balance history, every account
    balance and every current date, setting today's entry to the balance
    twice gives the same balances map, and the same document, as setting it
    once. *)
Theorem mergeBalance_idempotent (history : BalanceHistory) (accountBalance : Z)
    (now : Moment) :
  let todayAsString := format_YYYY_MM_DD now in
  let once := mergeBalance history todayAsString accountBalance in
  let twice := mergeBalance once todayAsString accountBalance in
  balances twice = balances once ∧ twice = once.
Proof.
  intros today once twice. unfold twice, once, mergeBalance; simpl.
  rewrite insert_insert_eq. done.
Qed.

(** C2.  The merge touches today's entry only: an entry of the balances map
    for a date key other than today's is left as it was (neither removed nor
    altered), the map without today's key is the same before and after, and
    the identifier, the year, the metadata and the relationship of the
    document are unchanged. *)
Theorem mergeBalance_frame (history : BalanceHistory) (accountBalance : Z)
    (now : Moment) (d : string) :
  d ≠ format_YYYY_MM_DD now →
  let merged := mergeBalance history (format_YYYY_MM_DD now) accountBalance in
  balances merged !! d = balances history !! d
  ∧ delete (format_YYYY_MM_DD now) (balances merged)
    = delete (format_YYYY_MM_DD now) (balances history)
  ∧ _id merged = _id history
  ∧ year merged = year history
  ∧ metadata merged = metadata history
  ∧ relationships merged = relationships history.
Proof.
  intros Hd merged. unfold merged, mergeBalance; simpl.
  split; [by apply lookup_insert_ne|].
  split; [by apply delete_insert_eq|done].
Qed.

Lemma mergeBalance_frame_witness :
  "2024-01-01" ≠ format_YYYY_MM_DD june15
  ∧ balances (mergeBalance history2024 (format_YYYY_MM_DD june15) 100) !! "2024-01-01"
    = Some 90.
Proof.
  assert (Hd : "2024-01-01" ≠ format_YYYY_MM_DD june15) by (vm_compute; discriminate).
  split; [exact Hd|].
  destruct (mergeBalance_frame history2024 100 june15 "2024-01-01" Hd) as [Hb _].
  rewrite Hb. reflexivity.
Defined.

(** C3.  Year isolation.  In a well-formed store, when the current year is
    Y+1: a lookup selects only documents whose year is Y+1; the balances step
    of the run leaves every document of year Y where it is, with the balances
    map it had; and for an account of the run that has no document of year
    Y+1 the run creates one, a sibling with an identifier that was not in
    use, of year Y+1 and of that account. *)
Theorem year_isolation (st : Store) (Y : Z) (now : Moment)
    (accounts : list SavedAccount) (i : nat) (prior : BalanceHistory) :
  store_wf st →
  moment_year now = Y + 1 →
  st !! i = Some prior →
  year prior = Y →
  (∀ accountId index results,
     query (cozyData st) index (balanceHistoryOptions (moment_year now) accountId)
     = Fulfilled results →
     Forall (fun doc => year doc = Y + 1) results)
  ∧ ∃ st',
      balancesStep now accounts st = Fulfilled st'
      ∧ st' !! i = Some prior
      ∧ ∀ account,
          account ∈ accounts →
          matching st (Y + 1) (account_id account) = [] →
          ∃ id sibling,
            (id ∉ identifiers st)
            ∧ sibling ∈ st'
            ∧ _id sibling = Some id
            ∧ year sibling = Y + 1
            ∧ relationships sibling = accountRef (account_id account).
Proof.
  intros Hwf Hnow Hi Hprior. split.
  - intros accountId index results Hq. simpl in Hq. injection Hq as <-.
    apply Forall_take, Forall_forall. intros doc Hdoc.
    apply list_elem_of_filter in Hdoc as [Hsat _].
    apply satisfies_balanceHistoryOptions in Hsat as [Hy _]. lia.
  - destruct (balancesStep_keeps now accounts st i prior) as (st' & Hrun & Hkept);
      [done|done|lia|].
    exists st'. split; [done|]. split; [done|].
    intros account Hin Hnone. rewrite <- Hnow in Hnone.
    destruct (balancesStep_creates now accounts st account)
      as (st'' & id & Hrun' & Hfresh & Hcreated); [done|done|done|].
    assert (st'' = st') as -> by congruence.
    eexists id, _. split; [done|]. split; [exact Hcreated|].
    simpl. by rewrite Hnow.
Qed.

Lemma year_isolation_witness :
  ∃ st', balancesStep january1 [savedAccount "S1" 1 50] [history2024] = Fulfilled st'
         ∧ st' !! 0%nat = Some history2024.
Proof.
  destruct (year_isolation [history2024] 2024 january1 [savedAccount "S1" 1 50]
              0%nat history2024) as [_ (st' & Hrun & Hkept & _)].
  - apply (bool_decide_unpack _). vm_compute. exact I.
  - reflexivity.
  - reflexivity.
  - reflexivity.
  - exists st'. split; [exact Hrun|exact Hkept].
Defined.

(** The run of 2025-01-01 on the store that holds the history of 2024. *)
Example balancesStep_january1 :
  balancesStep january1 [savedAccount "S1" 1 50] [history2024]
  = Fulfilled
      [history2024;
       {| _id := Some "0";
          year := 2025;
          balances := {[ "2025-01-01" := 50 ]};
          metadata := {| version := 1 |};
          relationships := accountRef "S1" |}].
Proof. vm_compute. reflexivity. Qed.

(** The run of 2024-06-15 on the same store: the document is reused. *)
Example balancesStep_june15 :
  balancesStep june15 [savedAccount "S1" 1 100] [history2024]
  = Fulfilled
      [{| _id := Some "h2024";
          year := 2024;
          balances := <[ "2024-06-15" := 100 ]> {[ "2024-01-01" := 90 ]};
          metadata := {| version := 1 |};
          relationships := accountRef "S1" |}].
Proof. vm_compute. reflexivity. Qed.

(** Two runs on the same day leave the store as one run does, whether the
    first one reused the document or created it. *)
Example balancesStep_twice_june15 :
  (let! st' := balancesStep june15 [savedAccount "S1" 1 100] [history2024] in
   balancesStep june15 [savedAccount "S1" 1 100] st')
  = balancesStep june15 [savedAccount "S1" 1 100] [history2024].
Proof. vm_compute. reflexivity. Qed.

Example balancesStep_twice_january1 :
  (let! st' := balancesStep january1 [savedAccount "S1" 1 50] [history2024] in
   balancesStep january1 [savedAccount "S1" 1 50] st')
  = balancesStep january1 [savedAccount "S1" 1 50] [history2024].
Proof. vm_compute. reflexivity. Qed.

(** C4.  Create-if-absent.  When the lookup for the current year and an
    account of the run returns no document of a well-formed store, the
    document that [getBalanceHistory] returns is the fresh one, of that year,
    with empty balances, [metadata.version] 1 and the relationship to the
    account's storage identifier; and after the run the store holds, under an
    identifier that was not in use, the document of that year whose balances
    are the single entry of today's key and the account's balance, with
    [metadata.version] 1 and that relationship. *)
Theorem create_if_absent (st : Store) (now : Moment) (accounts : list SavedAccount)
    (account : SavedAccount) (index : Index) :
  store_wf st →
  account ∈ accounts →
  query (cozyData st) index
    (balanceHistoryOptions (moment_year now) (account_id account)) = Fulfilled [] →
  getBalanceHistory (cozyData st) (moment_year now) (account_id account)
  = Fulfilled
      {| _id := None;
         year := moment_year now;
         balances := ∅;
         metadata := {| version := 1 |};
         relationships := {| data_id := account_id account;
                             data_type := "io.cozy.bank.accounts" |} |}
  ∧ ∃ st' id,
      balancesStep now accounts st = Fulfilled st'
      ∧ (id ∉ identifiers st)
      ∧ {| _id := Some id;
           year := moment_year now;
           balances := {[ format_YYYY_MM_DD now := balance (account_fields account) ]};
           metadata := {| version := 1 |};
           relationships := {| data_id := account_id account;
                               data_type := "io.cozy.bank.accounts" |} |} ∈ st'.
Proof.
  intros Hwf Hin Hq.
  assert (Hnone : matching st (moment_year now) (account_id account) = []).
  { simpl in Hq. injection Hq as Hq. unfold matching; simpl.
    by destruct (filter _ st). }
  split.
  - by rewrite getBalanceHistory_cozyData, Hnone.
  - destruct (balancesStep_creates now accounts st account)
      as (st' & id & Hrun & Hfresh & Hcreated); [done|done|done|].
    exists st', id. split; [done|]. split; [done|].
    unfold withId, mergeBalance, getEmptyBalanceHistory in Hcreated; simpl in Hcreated.
    by rewrite insert_empty in Hcreated.
Qed.

Lemma create_if_absent_witness :
  ∃ st' id,
    balancesStep january1 [savedAccount "S2" 2 50] [history2024] = Fulfilled st'
    ∧ {| _id := Some id;
         year := 2025;
         balances := {[ "2025-01-01" := 50 ]};
         metadata := {| version := 1 |};
         relationships := accountRef "S2" |} ∈ st'.
Proof.
  destruct (create_if_absent [history2024] january1 [savedAccount "S2" 2 50]
              (savedAccount "S2" 2 50)
              {| index_doctype := "io.cozy.bank.balancehistories"; index_fields := [] |})
    as [_ (st' & id & Hrun & _ & Hdoc)].
  - apply (bool_decide_unpack _). vm_compute. exact I.
  - apply list_elem_of_singleton. reflexivity.
  - vm_compute. reflexivity.
  - exists st', id. split; [exact Hrun|exact Hdoc].
Defined.

(** C5.  The lookup.  The query asks for at most one result and selects by
    equality on the year and on the account's storage identifier, and on
    nothing else; whatever list of results the persistence layer answers
    with, [getBalanceHistory] returns its first member and ignores the others;
    in a store that holds several matching documents it returns the first of
    them, and is fulfilled. *)
Theorem lookup_first_of_many (y : Z) (accountId : string) :
  limit (balanceHistoryOptions y accountId) = 1%nat
  ∧ selector (balanceHistoryOptions y accountId)
    = [("year", JNumber y); ("relationships.account.data._id", JString accountId)]
  ∧ (∀ doc, satisfies (selector (balanceHistoryOptions y accountId)) doc
            ↔ year doc = y ∧ data_id (relationships doc) = accountId)
  ∧ (∀ data index first extras,
       defineIndex data "io.cozy.bank.balancehistories"
         ["year"; "relationships.account.data._id"] = Fulfilled index →
       query data index (balanceHistoryOptions y accountId)
       = Fulfilled (first :: extras) →
       getBalanceHistory data y accountId = Fulfilled first)
  ∧ (∀ st first extras,
       matching st y accountId = first :: extras →
       getBalanceHistory (cozyData st) y accountId = Fulfilled first).
Proof.
  split; [done|]. split; [done|].
  split; [apply satisfies_balanceHistoryOptions|].
  split.
  - intros data index first extras Hi Hq.
    by rewrite (getBalanceHistory_query data y accountId index (first :: extras)).
  - intros st first extras Hm.
    by rewrite getBalanceHistory_cozyData, Hm.
Qed.

Lemma lookup_first_of_many_witness :
  matching [history2024; history2024bis] 2024 "S1" = [history2024; history2024bis]
  ∧ getBalanceHistory (cozyData [history2024; history2024bis]) 2024 "S1"
    = Fulfilled history2024.
Proof.
  assert (Hm : matching [history2024; history2024bis] 2024 "S1"
               = [history2024; history2024bis]) by (vm_compute; reflexivity).
  split; [exact Hm|].
  destruct (lookup_first_of_many 2024 "S1") as (_ & _ & _ & _ & Hfirst).
  exact (Hfirst [history2024; history2024bis] history2024 [history2024bis] Hm).
Defined.

(** ** The normalizers *)

(** The bank table holds a bank for an identifier exactly when some bank of
    the fetched countries has it. *)
Lemma formatBanks_lookup_None (countries : list Country) (id : Z) :
  formatBanks countries !! id = None
  ↔ ∀ country parentBank bank,
      country ∈ countries → parentBank ∈ parent_banks country →
      bank ∈ bank_list parentBank → bank_id bank ≠ id.
Proof.
  unfold formatBanks.
  assert (Hbanks : ∀ (l : list RawBank) (m : gmap Z RawBank),
            foldl (fun banks bank => <[bank_id bank := bank]> banks) m l !! id = None
            ↔ m !! id = None ∧ ∀ bank, bank ∈ l → bank_id bank ≠ id).
  { induction l as [|b l IH]; intros m; simpl.
    - split; [intros H; split; [done|]; intros bank Hb; by apply elem_of_nil in Hb
             |by intros [H _]].
    - rewrite IH, lookup_insert_None. split.
      + intros [[Hm Hb] Hl]. split; [done|]. intros bank Hin.
        apply elem_of_cons in Hin as [->|Hin]; [done|by apply Hl].
      + intros [Hm Hl]. split; [split; [done|]|].
        * apply Hl. by left.
        * intros bank Hin. apply Hl. by right. }
  assert (Hparents : ∀ (l : list ParentBank) (m : gmap Z RawBank),
            foldl (fun banks parentBank =>
                     foldl (fun banks bank => <[bank_id bank := bank]> banks)
                           banks (bank_list parentBank)) m l !! id = None
            ↔ m !! id = None
              ∧ ∀ parentBank bank, parentBank ∈ l → bank ∈ bank_list parentBank →
                                   bank_id bank ≠ id).
  { induction l as [|p l IH]; intros m; simpl.
    - split; [intros H; split; [done|]; intros p bank Hp; by apply elem_of_nil in Hp
             |by intros [H _]].
    - rewrite IH, Hbanks. split.
      + intros [[Hm Hp] Hl]. split; [done|]. intros p' bank Hin Hb.
        apply elem_of_cons in Hin as [->|Hin]; [by apply Hp|by apply (Hl p')].
      + intros [Hm Hl]. split; [split; [done|]|].
        * intros bank Hb. apply (Hl p); [by left|done].
        * intros p' bank Hin Hb. apply (Hl p'); [by right|done]. }
  assert (Hcountries : ∀ (l : list Country) (m : gmap Z RawBank),
            foldl (fun banks country =>
                     foldl (fun banks parentBank =>
                              foldl (fun banks bank => <[bank_id bank := bank]> banks)
                                    banks (bank_list parentBank))
                           banks (parent_banks country)) m l !! id = None
            ↔ m !! id = None
              ∧ ∀ country parentBank bank,
                  country ∈ l → parentBank ∈ parent_banks country →
                  bank ∈ bank_list parentBank → bank_id bank ≠ id).
  { induction l as [|c l IH]; intros m; simpl.
    - split; [intros H; split; [done|]; intros c p bank Hc; by apply elem_of_nil in Hc
             |by intros [H _]].
    - rewrite IH, Hparents. split.
      + intros [[Hm Hc] Hl]. split; [done|]. intros c' p bank Hin Hp Hb.
        apply elem_of_cons in Hin as [->|Hin]; [by apply (Hc p)|by apply (Hl c' p)].
      + intros [Hm Hl]. split; [split; [done|]|].
        * intros p bank Hp Hb. apply (Hl c p); [by left|done|done].
        * intros c' p bank Hin Hp Hb. apply (Hl c' p); [by right|done|done]. }
  rewrite Hcountries, lookup_empty.
  split; [by intros [_ H]|by intros H].
Qed.

Section NormalizerProperties.

Variable accountTypeMapping : gmap string string.
Variable operationCategoryMapping : gmap Z CategoryEntry.

(** C6.  Category fallback.  Each raw transaction gives one normalized
    transaction, at the same place of the list; its [automaticCategoryId] is
    the number 0 when the vendor's category identifier has no entry in the
    category table, the [cozyCategoryId] of the entry when it has one, and
    in neither case undefined. *)
Theorem category_fallback (clock : nat → Z) (operations : list RawOperation)
    (i : nat) (operation : RawOperation) :
  operations !! i = Some operation →
  ∃ normalized,
    formatOperations operationCategoryMapping clock operations !! i = Some normalized
    ∧ (operationCategoryMapping !! op_category_id operation = None →
       Transaction.automaticCategoryId normalized = JNumber 0)
    ∧ (∀ entry,
         operationCategoryMapping !! op_category_id operation = Some entry →
         Transaction.automaticCategoryId normalized = JString (cozyCategoryId entry))
    ∧ Transaction.automaticCategoryId normalized ≠ JUndefined.
Proof.
  intros Hi. eexists. split.
  - unfold formatOperations. rewrite list_lookup_imap, Hi. reflexivity.
  - simpl. destruct (operationCategoryMapping !! op_category_id operation) as [e|].
    + split; [done|]. split; [|done]. by intros entry [= ->].
    + split; [done|]. split; [|done]. by intros entry.
Qed.


(** The import date of a normalized transaction is the instant at which the
    normalizer ran, whatever the transaction. *)
Lemma formatOperations_dateImport (clock : nat → Z) (operations : list RawOperation)
    (i : nat) (normalized : Transaction.t) :
  formatOperations operationCategoryMapping clock operations !! i = Some normalized →
  Transaction.dateImport normalized = DateAt (clock i).
Proof.
  unfold formatOperations. rewrite list_lookup_imap.
  destruct (operations !! i); simpl; [|done]. by intros [= <-].
Qed.

End NormalizerProperties.

Lemma category_fallback_witness :
  [rawOperation 270; rawOperation 999] !! 1%nat = Some (rawOperation 999)
  ∧ ∃ normalized,
      formatOperations oneCategory (fun _ => 0) [rawOperation 270; rawOperation 999]
        !! 1%nat = Some normalized
      ∧ Transaction.automaticCategoryId normalized = JNumber 0.
Proof.
  assert (Hi : [rawOperation 270; rawOperation 999] !! 1%nat = Some (rawOperation 999))
    by reflexivity.
  split; [exact Hi|].
  destruct (category_fallback oneCategory (fun _ => 0)
              [rawOperation 270; rawOperation 999] 1%nat (rawOperation 999) Hi)
    as (normalized & Hn & Hnone & _).
  exists normalized. split; [exact Hn|]. apply Hnone. vm_compute. reflexivity.
Defined.



Example formatAccounts_inherited :
  type <$> formatAccounts oneAccountType (formatBanks oneCountry)
             [rawAccount "toString" 408; rawAccount "constructor" 408;
              rawAccount "tostring" 408]
  = [JInherited "toString"; JInherited "constructor"; JString "none"].
Proof. vm_compute. reflexivity. Qed.

Example formatOperations_mapped :
  Transaction.automaticCategoryId
    <$> formatOperations oneCategory (fun _ => 0) [rawOperation 270; rawOperation 999]
  = [JString "400110"; JNumber 0].
Proof. vm_compute. reflexivity. Qed.

Example formatAccounts_mapped :
  (fun a => (type a, institutionLabel a))
    <$> formatAccounts oneAccountType (formatBanks oneCountry)
          [rawAccount "checking" 408; rawAccount "unheard" 5]
  = [(JString "Checking", JString "Banque"); (JString "none", JString "none")].
Proof. vm_compute. reflexivity. Qed.

(** ** The run *)

(** The promise of a fetcher settles through [resolve] only: it is fulfilled
    when the request is, and pending otherwise. *)
Lemma newPromise_tryRequest {R A} (response : Promise R) (f : R → A) (name : string) :
  newPromise (tryRequest response f name)
  = match response with
    | Fulfilled r => Fulfilled (f r)
    | _ => Pending
    end.
Proof. by destruct response. Qed.

Lemma authenticate_Fulfilled (w : World) (fields : Fields) (tokens : Tokens) :
  requestTokens (request w) (authenticateOptions fields) = Fulfilled tokens →
  authenticate w fields = Fulfilled tokens.
Proof.
  intros Hr. unfold authenticate. by rewrite newPromise_tryRequest, Hr.
Qed.

(** Whatever the vendor answers, the promise of [authenticate] is never
    rejected. *)
Lemma authenticate_never_Rejected (w : World) (fields : Fields) (e : Error) :
  authenticate w fields ≠ Rejected e.
Proof.
  unfold authenticate. rewrite newPromise_tryRequest.
  by destruct (requestTokens _ _).
Qed.

(** When the authentication request is rejected, the error named LOGIN_FAILED
    rejects the promise of the executor, which nothing holds, the promise of
    [authenticate] stays pending, and so does the run. *)
Lemma login_failure_is_lost (types : gmap string string)
    (categories : gmap Z CategoryEntry) (w : World) (fields : Fields) (st : Store)
    (e : Error) :
  requestTokens (request w) (authenticateOptions fields) = Rejected e →
  completion (tryRequest (requestTokens (request w) (authenticateOptions fields))
                (fun response => response) errors.LOGIN_FAILED)
  = Rejected {| message := errors.LOGIN_FAILED |}
  ∧ authenticate w fields = Pending
  ∧ start types categories w fields st = Pending.
Proof.
  intros Hr. rewrite Hr; simpl. split; [done|].
  assert (Ha : authenticate w fields = Pending).
  { unfold authenticate. by rewrite newPromise_tryRequest, Hr. }
  split; [done|]. unfold start. by rewrite Ha.
Qed.

(** C7.  The authentication of a run whose credentials the vendor rejects:
    the request is rejected, the error LOGIN_FAILED is thrown inside the
    executor and rejects a promise that nothing awaits, the promise that
    [authenticate] returns stays pending instead of being rejected with
    LOGIN_FAILED, and [start] neither resumes nor fails: no error reaches
    the caller.  When the credentials are accepted, [authenticate] is fulfilled
    with the tokens. *)
Theorem authenticate_rejected_credentials :
  requestTokens (request credentialsRejected) (authenticateOptions someFields)
  = Rejected {| message := "StatusCodeError: 401" |}
  ∧ completion
      (tryRequest (requestTokens (request credentialsRejected)
                     (authenticateOptions someFields))
                  (fun response => response) errors.LOGIN_FAILED)
    = Rejected {| message := "LOGIN_FAILED" |}
  ∧ authenticate credentialsRejected someFields = Pending
  ∧ authenticate credentialsRejected someFields
    ≠ Rejected {| message := errors.LOGIN_FAILED |}
  ∧ start oneAccountType oneCategory credentialsRejected someFields [history2024]
    = Pending
  ∧ authenticate credentialsAccepted someFields
    = Fulfilled {| access_token := "token" |}.
Proof.
  repeat split; try reflexivity. discriminate.
Qed.

(** The run of 2024-06-15 with accepted credentials, from the store that holds
    the history of 2024. *)
Example start_june15 :
  start oneAccountType oneCategory credentialsAccepted someFields [history2024]
  = Fulfilled
      [{| _id := Some "h2024";
          year := 2024;
          balances := <[ "2024-06-15" := 100 ]> {[ "2024-01-01" := 90 ]};
          metadata := {| version := 1 |};
          relationships := accountRef "S1" |}].
Proof. vm_compute. reflexivity. Qed.

(** A rejection of [reconciliator.save] is the rejection of the run. *)
Lemma start_save_Rejected (types : gmap string string)
    (categories : gmap Z CategoryEntry) (w : World) (fields : Fields) (st : Store)
    (tokens : Tokens) (banks : gmap Z RawBank) (accounts : list Account)
    (allOperations : list Transaction.t) (e : Error) :
  authenticate w fields = Fulfilled tokens →
  fetchBanks w fields = Fulfilled banks →
  fetchAccounts types w fields (access_token tokens) banks = Fulfilled accounts →
  fetchAllOperations categories w fields (access_token tokens) 0 accounts []
  = Fulfilled allOperations →
  save w accounts allOperations = Rejected e →
  start types categories w fields st = Rejected e.
Proof.
  intros Ha Hb Hc Ho Hs. unfold start.
  rewrite Ha; simpl. rewrite Hb; simpl. rewrite Hc; simpl. rewrite Ho; simpl.
  by rewrite Hs.
Qed.

(** * Further properties *)

(** ** The merge of a balance *)

(** X1.  After the merge the balances map holds the account's balance under
    today's key, its keys are the former keys and today's, and it has one
    entry more than before when today had none and as many when it had one:
    a day never gets two entries. *)
Theorem mergeBalance_keys (history : BalanceHistory) (todayAsString : string)
    (accountBalance : Z) :
  let merged := mergeBalance history todayAsString accountBalance in
  balances merged !! todayAsString = Some accountBalance
  ∧ dom (balances merged) = {[todayAsString]} ∪ dom (balances history)
  ∧ size (balances merged)
    = if decide (is_Some (balances history !! todayAsString))
      then size (balances history)
      else S (size (balances history)).
Proof.
  intros merged. unfold merged, mergeBalance; simpl.
  split; [apply lookup_insert_eq|]. split; [apply dom_insert_L|].
  destruct (decide (is_Some (balances history !! todayAsString))) as [[old Hold]|Hnone].
  - rewrite <- (insert_delete_id (balances history) todayAsString old Hold) at 2.
    rewrite <- insert_delete_eq.
    rewrite !map_size_insert_None by apply lookup_delete_eq. done.
  - apply map_size_insert_None. by apply eq_None_not_Some.
Qed.

(** X2.  The last balance merged for a day is the one that stays, and merges
    for two different days can be made in either order. *)
Theorem mergeBalance_order (history : BalanceHistory) (day other : string)
    (first second : Z) :
  mergeBalance (mergeBalance history day first) day second
  = mergeBalance history day second
  ∧ (day ≠ other →
     mergeBalance (mergeBalance history day first) other second
     = mergeBalance (mergeBalance history other second) day first).
Proof.
  unfold mergeBalance; simpl. split.
  - by rewrite insert_insert_eq.
  - intros Hne. f_equal. by apply insert_insert_ne.
Qed.

Lemma mergeBalance_order_witness :
  "2024-06-15" ≠ "2024-06-16"
  ∧ mergeBalance (mergeBalance history2024 "2024-06-15" 100) "2024-06-16" 120
    = mergeBalance (mergeBalance history2024 "2024-06-16" 120) "2024-06-15" 100.
Proof.
  assert (Hne : "2024-06-15" ≠ "2024-06-16") by discriminate.
  split; [exact Hne|].
  exact (proj2 (mergeBalance_order history2024 "2024-06-15" "2024-06-16" 100 120) Hne).
Defined.

(** ** The bank table *)

Lemma foldl_bind {A B C} (f : A → C → A) (g : B → list C) (a : A) (l : list B) :
  foldl (fun acc x => foldl f acc (g x)) a l = foldl f a (l ≫= g).
Proof.
  revert a. induction l as [|x l IH]; intros a; csimpl; [done|].
  by rewrite IH, foldl_app.
Qed.

Lemma formatBanks_allBanks (countries : list Country) :
  formatBanks countries
  = foldl (fun banks bank => <[bank_id bank := bank]> banks) ∅ (allBanks countries).
Proof.
  unfold formatBanks, allBanks. generalize (∅ : gmap Z RawBank).
  induction countries as [|country countries IH]; intros table; csimpl; [done|].
  by rewrite IH, foldl_app, foldl_bind.
Qed.

Lemma foldl_insert_lookup (l : list RawBank) (table : gmap Z RawBank) (id : Z) :
  foldl (fun banks bank => <[bank_id bank := bank]> banks) table l !! id
  = match last (filter (fun bank => bank_id bank = id) l) with
    | Some bank => Some bank
    | None => table !! id
    end.
Proof.
  induction l as [|bank l IH] using rev_ind; [done|].
  rewrite foldl_app, filter_app; simpl.
  rewrite filter_cons, filter_nil.
  destruct (decide (bank_id bank = id)) as [<-|Hne].
  - by rewrite lookup_insert_eq, last_snoc.
  - by rewrite lookup_insert_ne, app_nil_r.
Qed.

(** X3.  The bank table.  Under an identifier the table of [formatBanks]
    holds the last bank of the fetched countries that has this identifier, in
    the order of the response, and none when no fetched bank has it; so a
    bank found under an identifier has this identifier and was fetched. *)
Theorem formatBanks_lookup (countries : list Country) (id : Z) :
  formatBanks countries !! id
  = last (filter (fun bank => bank_id bank = id) (allBanks countries))
  ∧ ∀ bank, formatBanks countries !! id = Some bank →
            bank_id bank = id ∧ bank ∈ allBanks countries.
Proof.
  assert (Heq : formatBanks countries !! id
                = last (filter (fun bank => bank_id bank = id) (allBanks countries))).
  { rewrite formatBanks_allBanks, foldl_insert_lookup, lookup_empty.
    by destruct (last _). }
  split; [done|]. intros bank Hbank. rewrite Heq in Hbank.
  apply last_Some_elem_of in Hbank.
  apply list_elem_of_filter in Hbank as [? ?]. done.
Qed.

Example formatBanks_last_wins :
  formatBanks
    [{| parent_banks := [{| bank_list := [{| bank_id := 408; bank_name := "Banque" |}] |};
                         {| bank_list := [] |}] |};
     {| parent_banks := [{| bank_list := [{| bank_id := 408; bank_name := "Bank" |}] |}] |}]
    !! 408
  = Some {| bank_id := 408; bank_name := "Bank" |}.
Proof. vm_compute. reflexivity. Qed.

(** ** The normalizers, on lists *)

(** X4.  [formatAccounts] gives one account for each raw account, in the same
    order; the vendor's account identifier becomes both [vendorId] and
    [number], and the balance and the name are carried over, whatever the two
    tables hold. *)
Theorem formatAccounts_identities (types : gmap string string)
    (banks : gmap Z RawBank) (accounts : list RawAccount) :
  let normalized := formatAccounts types banks accounts in
  length normalized = length accounts
  ∧ vendorId <$> normalized = raw_id <$> accounts
  ∧ number <$> normalized = raw_id <$> accounts
  ∧ balance <$> normalized = raw_balance <$> accounts
  ∧ label <$> normalized = raw_name <$> accounts.
Proof.
  intros normalized. unfold normalized, formatAccounts.
  change (map (formatAccount types banks) accounts)
    with (formatAccount types banks <$> accounts).
  rewrite length_fmap, <- !list_fmap_compose. done.
Qed.

(** X5.  [formatOperations] gives one transaction for each raw transaction, in
    the same order; the vendor's identifiers of the transaction and of its
    account and the amount are carried over, [date] and [dateOperation] are
    one date, [type] is always 'none', and the import date of the [i]-th
    transaction is the instant read when its callback ran. *)
Theorem formatOperations_identities (categories : gmap Z CategoryEntry)
    (clock : nat → Z) (operations : list RawOperation) :
  let normalized := formatOperations categories clock operations in
  length normalized = length operations
  ∧ Transaction.vendorId <$> normalized = op_id <$> operations
  ∧ Transaction.vendorAccountId <$> normalized = op_account_id <$> operations
  ∧ Transaction.amount <$> normalized = op_amount <$> operations
  ∧ (∀ i t, normalized !! i = Some t →
            Transaction.date t = Transaction.dateOperation t
            ∧ Transaction.type t = "none"
            ∧ Transaction.dateImport t = DateAt (clock i)).
Proof.
  intros normalized. unfold normalized, formatOperations.
  split; [apply length_imap|].
  assert (Hfmap : ∀ {B} (f : Transaction.t → B) (g : RawOperation → B),
            (∀ i op, f (formatOperation categories (clock i) op) = g op) →
            f <$> imap (fun i operation => formatOperation categories (clock i) operation)
                       operations
            = g <$> operations).
  { intros B f g Hfg. apply list_eq. intros i.
    rewrite !list_lookup_fmap, list_lookup_imap.
    destruct (operations !! i); simpl; [by rewrite Hfg|done]. }
  split; [by apply Hfmap|]. split; [by apply Hfmap|]. split; [by apply Hfmap|].
  intros i t Ht. rewrite list_lookup_imap in Ht.
  destruct (operations !! i); simpl in Ht; [|done].
  by injection Ht as <-.
Qed.

(** ** The fetchers *)

Lemma fetchBanks_settles (w : World) (fields : Fields) :
  fetchBanks w fields
  = match requestBanks (request w) (banksOptions fields) with
    | Fulfilled countries => Fulfilled (formatBanks countries)
    | _ => Pending
    end.
Proof. unfold fetchBanks. by rewrite newPromise_tryRequest. Qed.

Lemma fetchAccounts_settles (types : gmap string string) (w : World) (fields : Fields)
    (accesToken : string) (banks : gmap Z RawBank) :
  fetchAccounts types w fields accesToken banks
  = match requestAccounts (request w) (accountsOptions fields accesToken) with
    | Fulfilled accounts => Fulfilled (formatAccounts types banks accounts)
    | _ => Pending
    end.
Proof. unfold fetchAccounts. by rewrite newPromise_tryRequest. Qed.

Lemma fetchOperations_settles (categories : gmap Z CategoryEntry) (w : World)
    (fields : Fields) (accesToken : string) (clock : nat → Z) (account : Account) :
  fetchOperations categories w fields accesToken clock account
  = match requestOperations (request w) (operationsOptions fields accesToken account) with
    | Fulfilled operations => Fulfilled (formatOperations categories clock operations)
    | _ => Pending
    end.
Proof. unfold fetchOperations. by rewrite newPromise_tryRequest. Qed.

Lemma fetchAllOperations_never_Rejected (categories : gmap Z CategoryEntry) (w : World)
    (fields : Fields) (accesToken : string) (i : nat) (accounts : list Account)
    (allOperations : list Transaction.t) (e : Error) :
  fetchAllOperations categories w fields accesToken i accounts allOperations ≠ Rejected e.
Proof.
  revert i allOperations. induction accounts as [|account rest IH];
    intros i allOperations; simpl; [done|].
  rewrite fetchOperations_settles.
  destruct (requestOperations _ _); simpl; [done|apply IH|done].
Qed.

(** X6.  No fetcher ever fails: whatever the vendor answers, the promises of
    [fetchBanks], [fetchAccounts] and [fetchOperations], and the loop over the
    accounts, are never rejected.  The error VENDOR_DOWN thrown in their
    [catch] rejects the promise of the executor only: when the request is
    rejected the fetcher stays pending. *)
Theorem fetchers_never_Rejected (types : gmap string string)
    (categories : gmap Z CategoryEntry) (w : World) (fields : Fields)
    (accesToken : string) (banks : gmap Z RawBank) (clock : nat → Z)
    (account : Account) (accounts : list Account) (e : Error) :
  fetchBanks w fields ≠ Rejected e
  ∧ fetchAccounts types w fields accesToken banks ≠ Rejected e
  ∧ fetchOperations categories w fields accesToken clock account ≠ Rejected e
  ∧ fetchAllOperations categories w fields accesToken 0 accounts [] ≠ Rejected e
  ∧ (∀ e', requestBanks (request w) (banksOptions fields) = Rejected e' →
           fetchBanks w fields = Pending)
  ∧ (∀ e', requestAccounts (request w) (accountsOptions fields accesToken) = Rejected e' →
           fetchAccounts types w fields accesToken banks = Pending)
  ∧ (∀ e', requestOperations (request w) (operationsOptions fields accesToken account)
           = Rejected e' →
           fetchOperations categories w fields accesToken clock account = Pending).
Proof.
  rewrite fetchBanks_settles, fetchAccounts_settles, fetchOperations_settles.
  split; [by destruct (requestBanks _ _)|].
  split; [by destruct (requestAccounts _ _)|].
  split; [by destruct (requestOperations _ _)|].
  split; [apply fetchAllOperations_never_Rejected|].
  split; [by intros e' ->|]. split; by intros e' ->.
Qed.

Lemma fetchers_never_Rejected_witness :
  requestBanks (request banksDown) (banksOptions someFields)
  = Rejected {| message := "StatusCodeError: 503" |}
  ∧ fetchBanks banksDown someFields = Pending.
Proof.
  assert (Hr : requestBanks (request banksDown) (banksOptions someFields)
               = Rejected {| message := "StatusCodeError: 503" |}) by reflexivity.
  split; [exact Hr|].
  destruct (fetchers_never_Rejected oneAccountType oneCategory banksDown someFields
              "token" ∅ (fun _ => 0) (normalizedAccount 1) [] {| message := "" |})
    as (_ & _ & _ & _ & Hbanks & _).
  exact (Hbanks _ Hr).
Defined.

(** The loop over the accounts, from the [i]-th account on, when the vendor
    answers for each of them. *)
Lemma fetchAllOperations_answers (categories : gmap Z CategoryEntry) (w : World)
    (fields : Fields) (accesToken : string) (raw : Account → list RawOperation)
    (accounts : list Account) (i : nat) (allOperations : list Transaction.t) :
  (∀ account, account ∈ accounts →
     requestOperations (request w) (operationsOptions fields accesToken account)
     = Fulfilled (raw account)) →
  fetchAllOperations categories w fields accesToken i accounts allOperations
  = Fulfilled
      (allOperations
       ++ concat (imap (fun k account =>
                          formatOperations categories (dateNow w (i + k)) (raw account))
                       accounts)).
Proof.
  revert i allOperations. induction accounts as [|account rest IH];
    intros i allOperations Hanswers; simpl.
  - by rewrite app_nil_r.
  - rewrite fetchOperations_settles, Hanswers by (by left). simpl.
    rewrite IH by (intros a Ha; apply Hanswers; by right).
    rewrite Nat.add_0_r, <- app_assoc. do 4 f_equal.
    apply imap_ext. intros k a _. simpl. by rewrite Nat.add_succ_r.
Qed.

(** X7.  The loop of [start] over the accounts.  When the vendor answers for
    every account, the operations handed to the reconciliator are the
    normalized operations of the first account, then those of the second, and
    so on, the [k]-th account's with the instants read during its turn; none
    is dropped, none is added.  Without accounts there is no request and no
    operation. *)
Theorem fetchAllOperations_in_order (categories : gmap Z CategoryEntry) (w : World)
    (fields : Fields) (accesToken : string) (raw : Account → list RawOperation)
    (accounts : list Account) :
  (∀ account, account ∈ accounts →
     requestOperations (request w) (operationsOptions fields accesToken account)
     = Fulfilled (raw account)) →
  fetchAllOperations categories w fields accesToken 0 accounts []
  = Fulfilled
      (concat (imap (fun k account =>
                       formatOperations categories (dateNow w k) (raw account))
                    accounts))
  ∧ fetchAllOperations categories w fields accesToken 0 [] [] = Fulfilled [].
Proof.
  intros Hanswers. split; [|done].
  by rewrite (fetchAllOperations_answers categories w fields accesToken raw).
Qed.

Lemma fetchAllOperations_in_order_witness :
  fetchAllOperations oneCategory credentialsAccepted someFields "token" 0
    [normalizedAccount 1; normalizedAccount 2] []
  = Fulfilled
      (formatOperations oneCategory (fun _ => 0) [rawOperation 270]
       ++ formatOperations oneCategory (fun _ => 0) [rawOperation 270]).
Proof.
  destruct (fetchAllOperations_in_order oneCategory credentialsAccepted someFields
              "token" (fun _ => [rawOperation 270])
              [normalizedAccount 1; normalizedAccount 2]) as [Hrun _].
  - intros account _. reflexivity.
  - rewrite Hrun. reflexivity.
Defined.

(** X8.  The loop stops at the first account for which the vendor does not
    answer: when the requests for the accounts before it are answered and the
    one for it is rejected or pending, the loop stays pending, whatever the
    vendor would answer for the accounts after it; the operations fetched so
    far are handed to nobody. *)
Theorem fetchAllOperations_stops (categories : gmap Z CategoryEntry) (w : World)
    (fields : Fields) (accesToken : string) (raw : Account → list RawOperation)
    (before after : list Account) (account : Account) :
  (∀ a, a ∈ before →
     requestOperations (request w) (operationsOptions fields accesToken a)
     = Fulfilled (raw a)) →
  (∀ operations,
     requestOperations (request w) (operationsOptions fields accesToken account)
     ≠ Fulfilled operations) →
  fetchAllOperations categories w fields accesToken 0 (before ++ account :: after) []
  = Pending.
Proof.
  intros Hbefore Hdown.
  generalize 0%nat at 1. generalize (@nil Transaction.t).
  induction before as [|a before IH]; intros allOperations i; simpl.
  - rewrite fetchOperations_settles.
    destruct (requestOperations _ _) as [|operations|] eqn:Hr; simpl; [done| |done].
    by destruct (Hdown operations).
  - rewrite fetchOperations_settles, Hbefore by (by left). simpl.
    apply IH. intros a' Ha'. apply Hbefore. by right.
Qed.

Lemma fetchAllOperations_stops_witness :
  fetchAllOperations oneCategory operationsDown someFields "token" 0
    ([normalizedAccount 1] ++ normalizedAccount 2 :: [normalizedAccount 3]) []
  = Pending.
Proof.
  apply (fetchAllOperations_stops oneCategory operationsDown someFields "token"
           (fun _ => [rawOperation 270])).
  - intros a Ha. apply list_elem_of_singleton in Ha. rewrite Ha. vm_compute. reflexivity.
  - intros operations. vm_compute. discriminate.
Defined.

(** ** The run, step by step *)

Lemma authenticate_settles (w : World) (fields : Fields) :
  authenticate w fields
  = match requestTokens (request w) (authenticateOptions fields) with
    | Fulfilled tokens => Fulfilled tokens
    | _ => Pending
    end.
Proof. unfold authenticate. by rewrite newPromise_tryRequest. Qed.

(** X9.  A run is fulfilled exactly when the vendor accepted the credentials,
    answered for the banks, for the accounts (asked with the token just
    received) and for the operations of every account, the reconciliator
    saved the normalized accounts and operations, and the balances step on
    the accounts that the reconciliator returned was fulfilled; the store that
    the run leaves is the one that this balances step leaves. *)
Theorem start_Fulfilled (types : gmap string string) (categories : gmap Z CategoryEntry)
    (w : World) (fields : Fields) (st st' : Store) :
  start types categories w fields st = Fulfilled st'
  ↔ ∃ tokens countries rawAccounts allOperations savedAccounts,
      requestTokens (request w) (authenticateOptions fields) = Fulfilled tokens
      ∧ requestBanks (request w) (banksOptions fields) = Fulfilled countries
      ∧ requestAccounts (request w) (accountsOptions fields (access_token tokens))
        = Fulfilled rawAccounts
      ∧ fetchAllOperations categories w fields (access_token tokens) 0
          (formatAccounts types (formatBanks countries) rawAccounts) []
        = Fulfilled allOperations
      ∧ save w (formatAccounts types (formatBanks countries) rawAccounts) allOperations
        = Fulfilled savedAccounts
      ∧ balancesStep (momentNow w) savedAccounts st = Fulfilled st'.
Proof.
  unfold start, balancesStep.
  rewrite authenticate_settles, fetchBanks_settles.
  split.
  - destruct (requestTokens _ _) as [|tokens|] eqn:Htokens; simpl; [done| |done].
    destruct (requestBanks _ _) as [|countries|] eqn:Hbanks; simpl; [done| |done].
    rewrite fetchAccounts_settles.
    destruct (requestAccounts _ _) as [|rawAccounts|] eqn:Haccounts; simpl; [done| |done].
    destruct (fetchAllOperations _ _ _ _ _ _ _) as [|allOperations|] eqn:Hops;
      simpl; [done| |done].
    destruct (save _ _ _) as [|savedAccounts|] eqn:Hsave; simpl; [done| |done].
    intros Hrun. by exists tokens, countries, rawAccounts, allOperations, savedAccounts.
  - intros (tokens & countries & rawAccounts & allOperations & savedAccounts
            & -> & -> & Haccounts & Hops & Hsave & Hrun); simpl.
    rewrite fetchAccounts_settles, Haccounts; simpl.
    rewrite Hops; simpl. by rewrite Hsave.
Qed.

(** X10.  A failure of the vendor on the banks or on the accounts leaves the
    run pending: the request is rejected, the fetcher throws VENDOR_DOWN
    inside its executor, and the promise of [start] is neither fulfilled nor
    rejected, so that nothing is saved and no error reaches the caller. *)
Theorem start_vendor_down (types : gmap string string)
    (categories : gmap Z CategoryEntry) (w : World) (fields : Fields) (st : Store)
    (e : Error) :
  (requestBanks (request w) (banksOptions fields) = Rejected e →
   start types categories w fields st = Pending)
  ∧ ((∀ accesToken,
        requestAccounts (request w) (accountsOptions fields accesToken) = Rejected e) →
     start types categories w fields st = Pending).
Proof.
  unfold start. rewrite authenticate_settles, fetchBanks_settles. split.
  - intros ->. by destruct (requestTokens _ _).
  - intros Hdown.
    destruct (requestTokens _ _) as [|tokens|]; simpl; [done| |done].
    destruct (requestBanks _ _) as [|countries|]; simpl; [done| |done].
    by rewrite fetchAccounts_settles, Hdown.
Qed.

Lemma start_vendor_down_witness :
  requestBanks (request banksDown) (banksOptions someFields)
  = Rejected {| message := "StatusCodeError: 503" |}
  ∧ start oneAccountType oneCategory banksDown someFields [history2024] = Pending.
Proof.
  assert (Hr : requestBanks (request banksDown) (banksOptions someFields)
               = Rejected {| message := "StatusCodeError: 503" |}) by reflexivity.
  split; [exact Hr|].
  exact (proj1 (start_vendor_down oneAccountType oneCategory banksDown someFields
                  [history2024] _) Hr).
Defined.

(** ** The lookups of a run *)

Lemma Promise_all_Fulfilled_inv {A} (ps : list (Promise A)) (l : list A) :
  Promise_all ps = Fulfilled l ↔ ps = Fulfilled <$> l.
Proof.
  revert l. induction ps as [|p ps IH]; intros l; simpl.
  - split; [intros [= <-]; done|]. by destruct l.
  - destruct p as [|a|e].
    + split; [by destruct (Promise_all ps)|by destruct l].
    + destruct (Promise_all ps) as [|l'|e] eqn:Hall.
      * split; [done|]. destruct l as [|a' l]; [done|]. intros [= -> Hps].
        apply (IH l) in Hps. done.
      * split.
        -- intros [= <-]. csimpl. f_equal. by apply IH.
        -- destruct l as [|a' l]; [done|]. intros [= -> Hps].
           apply (IH l) in Hps. by injection Hps as ->.
      * split; [done|]. destruct l as [|a' l]; [done|]. intros [= -> Hps].
        apply (IH l) in Hps. done.
    + split; [done|by destruct l].
Qed.

Lemma Promise_all_Rejected {A} (ps : list (Promise A)) :
  (∃ e, Promise_all ps = Rejected e) ↔ ∃ e, Rejected e ∈ ps.
Proof.
  induction ps as [|p ps IH]; simpl.
  - split; intros [e He]; [done|by apply elem_of_nil in He].
  - split.
    + intros [e He]. destruct p as [|a|e'].
      * destruct (Promise_all ps) as [| |e'] eqn:Hall; try done.
        destruct (proj1 IH (ex_intro _ e' eq_refl)) as [e'' He''].
        exists e''. by right.
      * destruct (Promise_all ps) as [| |e'] eqn:Hall; try done.
        destruct (proj1 IH (ex_intro _ e' eq_refl)) as [e'' He''].
        exists e''. by right.
      * exists e'. by left.
    + intros [e He]. apply elem_of_cons in He as [<-|He]; [by exists e|].
      destruct (proj2 IH (ex_intro _ e He)) as [e' ->].
      destruct p; by eexists.
Qed.

Lemma Promise_all_Rejected_elem {A} (ps : list (Promise A)) (e : Error) :
  Promise_all ps = Rejected e → Rejected e ∈ ps.
Proof.
  induction ps as [|p ps IH]; simpl; [done|].
  destruct p as [|a|e'].
  - destruct (Promise_all ps); try done. intros [= ->]. right. by apply IH.
  - destruct (Promise_all ps); try done. intros [= ->]. right. by apply IH.
  - intros [= ->]. by left.
Qed.

(** X11.  The outcome of a lookup.  [getBalanceHistory] is rejected exactly
    when the definition of the index is, or the query is, with the same
    error; it is fulfilled exactly when both are, with the first document of
    the answer, or with a fresh document when the answer is empty.  A failure
    of the persistence layer never yields a fresh document. *)
Theorem getBalanceHistory_outcome (data : CozyData) (y : Z) (accountId : string) :
  (∀ e, getBalanceHistory data y accountId = Rejected e
        ↔ defineIndex data "io.cozy.bank.balancehistories"
            ["year"; "relationships.account.data._id"] = Rejected e
          ∨ ∃ index,
              defineIndex data "io.cozy.bank.balancehistories"
                ["year"; "relationships.account.data._id"] = Fulfilled index
              ∧ query data index (balanceHistoryOptions y accountId) = Rejected e)
  ∧ (∀ history, getBalanceHistory data y accountId = Fulfilled history
        ↔ ∃ index results,
            defineIndex data "io.cozy.bank.balancehistories"
              ["year"; "relationships.account.data._id"] = Fulfilled index
            ∧ query data index (balanceHistoryOptions y accountId) = Fulfilled results
            ∧ history = default (getEmptyBalanceHistory y accountId) (head results)).
Proof.
  unfold getBalanceHistory. split.
  - intros e. destruct (defineIndex data _ _) as [|index|e'] eqn:Hindex; simpl.
    + split; [done|]. intros [?|(? & ? & _)]; done.
    + destruct (query data index _) as [|results|e''] eqn:Hquery; simpl.
      * split; [done|]. intros [?|(index' & [= <-] & Hq)]; [done|]. congruence.
      * split; [by destruct results|].
        intros [?|(index' & [= <-] & Hq)]; [done|]. congruence.
      * split.
        -- intros [= ->]. right. by exists index.
        -- intros [?|(index' & [= <-] & Hq)]; [done|]. congruence.
    + split; [intros [= ->]; by left|].
      intros [[= ->]|(? & ? & _)]; done.
  - intros history. destruct (defineIndex data _ _) as [|index|e'] eqn:Hindex; simpl.
    + split; [done|]. by intros (? & ? & ? & _).
    + destruct (query data index _) as [|results|e''] eqn:Hquery; simpl.
      * split; [done|]. intros (index' & results' & [= <-] & Hq & _). congruence.
      * split.
        -- intros Hh. exists index, results. split; [done|]. split; [done|].
           destruct results; by injection Hh as <-.
        -- intros (index' & results' & [= <-] & Hq & ->).
           rewrite Hquery in Hq. injection Hq as <-. by destruct results.
      * split; [done|]. intros (index' & results' & [= <-] & Hq & _). congruence.
    + split; [done|]. by intros (? & ? & ? & _).
Qed.

(** X12.  The lookups of a run stand or fall together.  [fetchBalances] is
    fulfilled exactly when the lookup of every account is, and then it gives
    one history for each account, in the order of the accounts: the history
    that the lookup gave with today's balance of the account merged in. *)
Theorem fetchBalances_Fulfilled (data : CozyData) (now : Moment)
    (accounts : list SavedAccount) (histories : list BalanceHistory) :
  fetchBalances data now accounts = Fulfilled histories
  ↔ Forall2 (fun account history =>
               ∃ found,
                 getBalanceHistory data (moment_year now) (account_id account)
                 = Fulfilled found
                 ∧ history = todaysHistory now account found)
            accounts histories.
Proof.
  unfold fetchBalances. rewrite Promise_all_Fulfilled_inv.
  revert histories. induction accounts as [|account accounts IH]; intros histories.
  - destruct histories as [|history histories]; csimpl.
    + split; [intros _; constructor|done].
    + split; [intros [=]|intros H; inversion H].
  - destruct histories as [|history histories]; csimpl.
    + split; [intros [=]|intros H; inversion H].
    + split.
      * intros [= Hhead Htail]. constructor; [|by apply IH].
        destruct (getBalanceHistory _ _ _) as [|found|]; simpl in Hhead; try done.
        injection Hhead as <-. by exists found.
      * intros H. inversion H as [|? ? ? ? (found & Hfound & ->) Hrest]; subst.
        rewrite Hfound; simpl. f_equal. by apply IH.
Qed.

(** X13.  When the lookup of one account of the run is rejected, the whole of
    [fetchBalances] is, with the error of a rejected lookup: the histories of
    the other accounts are not returned, so that [start] saves none of
    them. *)
Theorem fetchBalances_one_fails (data : CozyData) (now : Moment)
    (accounts : list SavedAccount) (account : SavedAccount) (e : Error) :
  account ∈ accounts →
  getBalanceHistory data (moment_year now) (account_id account) = Rejected e →
  ∃ e' failed,
    fetchBalances data now accounts = Rejected e'
    ∧ failed ∈ accounts
    ∧ getBalanceHistory data (moment_year now) (account_id failed) = Rejected e'.
Proof.
  intros Hin Hfail. unfold fetchBalances.
  set (ps := map _ accounts).
  assert (Hps : Rejected e ∈ ps).
  { apply list_elem_of_fmap. exists account. split; [|done]. by rewrite Hfail. }
  destruct (proj2 (Promise_all_Rejected ps) (ex_intro _ e Hps)) as [e' He'].
  apply Promise_all_Rejected_elem in He' as Hin'.
  apply list_elem_of_fmap in Hin' as (failed & Hfailed & Hin').
  exists e', failed. split; [done|]. split; [done|].
  simpl in Hfailed. revert Hfailed.
  destruct (getBalanceHistory data (moment_year now) (account_id failed));
    simpl; congruence.
Qed.

Lemma fetchBalances_one_fails_witness :
  ∃ e' failed,
    fetchBalances queriesDown june15 [savedAccount "S1" 1 100; savedAccount "S2" 2 50]
    = Rejected e'
    ∧ failed ∈ [savedAccount "S1" 1 100; savedAccount "S2" 2 50]
    ∧ getBalanceHistory queriesDown 2024 (account_id failed) = Rejected e'.
Proof.
  apply (fetchBalances_one_fails queriesDown june15
           [savedAccount "S1" 1 100; savedAccount "S2" 2 50] (savedAccount "S2" 2 50)
           {| message := "ECONNREFUSED" |}).
  - right. left.
  - vm_compute. reflexivity.
Defined.

(** ** The balances step on the store *)

Lemma balancesStep_entries (now : Moment) (accounts : list SavedAccount) (st : Store) :
  balancesStep now accounts st
  = Fulfilled (mapSeries st ["_id"] (todaysEntry now st <$> accounts) st).
Proof. exact (balancesStep_cozyData now accounts st). Qed.

Lemma store_wf_id (st : Store) (doc : BalanceHistory) :
  store_wf st → doc ∈ st → ∃ id, _id doc = Some id.
Proof.
  intros [Hsome _] Hdoc. exact (proj1 (Forall_forall _ _) Hsome doc Hdoc).
Qed.

Lemma head_matching_elem (st : Store) (y : Z) (a : string) (h : BalanceHistory) :
  head (matching st y a) = Some h →
  h ∈ st ∧ year h = y ∧ data_id (relationships h) = a.
Proof.
  intros Hh. apply matching_spec.
  destruct (matching st y a) as [|h' rest]; [done|].
  injection Hh as ->. by left.
Qed.

(** The write that an entry of the run makes, in a well-formed store. *)
Lemma upsert_todaysEntry (now : Moment) (st cur : Store) (account : SavedAccount) :
  store_wf st →
  upsert st ["_id"] (todaysEntry now st account) cur
  = match head (matching st (moment_year now) (account_id account)) with
    | Some h =>
        match _id h with
        | Some id => updateAttributes id (todaysHistory now account h) cur
        | None => cur
        end
    | None =>
        create (todaysHistory now account
                  (getEmptyBalanceHistory (moment_year now) (account_id account))) cur
    end.
Proof.
  intros Hwf. unfold upsert, todaysEntry.
  destruct (head (matching st _ _)) as [h|] eqn:Hh; simpl.
  - apply head_matching_elem in Hh as (Hin & _ & _).
    destruct (store_wf_id st h Hwf Hin) as [id Hid].
    destruct (list_find _ st) as [[j u]|] eqn:Hfind.
    + apply list_find_Some in Hfind as (Hj & Hkey & _).
      unfold sameKey in Hkey. rewrite Forall_cons in Hkey. destruct Hkey as [Hkey _].
      unfold todaysHistory in Hkey. rewrite get_id_mergeBalance in Hkey.
      assert (u = h) as ->; [|by rewrite Hid].
      apply (store_wf_same_id st); [done| |done|].
      * apply list_elem_of_lookup. eauto.
      * apply get_id in Hid as Hget. rewrite Hget in Hkey.
        apply get_id in Hkey. congruence.
    + apply list_find_None in Hfind.
      destruct (proj1 (Forall_forall _ _) Hfind h Hin).
      unfold sameKey. rewrite Forall_cons. split; [|constructor].
      unfold todaysHistory. by rewrite get_id_mergeBalance.
  - by rewrite no_target_without_id.
Qed.

Lemma ids_updateAttributes (id : string) (entry : BalanceHistory) (st : Store) :
  _id <$> updateAttributes id entry st = _id <$> st.
Proof.
  unfold updateAttributes. rewrite <- list_fmap_compose.
  apply list_fmap_ext. intros i doc _. simpl.
  by destruct (decide (_id doc = Some id)).
Qed.

Lemma store_wf_updateAttributes (id : string) (entry : BalanceHistory) (st : Store) :
  store_wf st → store_wf (updateAttributes id entry st).
Proof.
  intros [Hsome Hnodup]. split; [|by rewrite ids_updateAttributes].
  unfold updateAttributes. apply Forall_fmap.
  eapply Forall_impl; [exact Hsome|]. intros doc Hdoc. simpl.
  by destruct (decide (_id doc = Some id)).
Qed.

Lemma store_wf_create (entry : BalanceHistory) (st : Store) :
  store_wf st → store_wf (create entry st).
Proof.
  intros [Hsome Hnodup]. unfold create. split.
  - apply Forall_app. split; [done|]. by repeat constructor.
  - rewrite fmap_app. apply NoDup_app. split; [done|]. split; [|apply NoDup_singleton].
    intros x Hx Hfresh. apply list_elem_of_singleton in Hfresh. subst x.
    apply list_elem_of_fmap in Hx as (doc & Hid & Hdoc).
    apply (infinite_is_fresh (identifiers st)).
    apply identifiers_elem_of. by exists doc.
Qed.

Lemma store_wf_upsert (existings : Store) (attrs : list string)
    (entry : BalanceHistory) (st : Store) :
  store_wf st → store_wf (upsert existings attrs entry st).
Proof.
  intros Hwf. unfold upsert.
  destruct (list_find _ existings) as [[j u]|].
  - destruct (_id u); [by apply store_wf_updateAttributes|done].
  - by apply store_wf_create.
Qed.

Lemma ids_upsert (existings : Store) (attrs : list string)
    (entry : BalanceHistory) (st : Store) :
  (_id <$> st) `prefix_of` (_id <$> upsert existings attrs entry st).
Proof.
  unfold upsert.
  destruct (list_find _ existings) as [[j u]|].
  - destruct (_id u); [by rewrite ids_updateAttributes|done].
  - unfold create. rewrite fmap_app. by apply prefix_app_r.
Qed.

Lemma mapSeries_wf (existings : Store) (attrs : list string)
    (entries : list BalanceHistory) (st : Store) :
  store_wf st →
  store_wf (mapSeries existings attrs entries st)
  ∧ (_id <$> st) `prefix_of` (_id <$> mapSeries existings attrs entries st).
Proof.
  revert st. induction entries as [|entry rest IH]; intros st Hwf; simpl; [done|].
  destruct (IH (upsert existings attrs entry st)) as [Hwf' Hprefix];
    [by apply store_wf_upsert|].
  split; [done|]. etrans; [apply ids_upsert|done].
Qed.

(** X14.  The balances step keeps the store well-formed: after it every
    document still has an identifier and no two share one; the documents that
    were stored are still there, at their places and under their identifiers,
    and what the run adds comes after them. *)
Theorem balancesStep_store_wf (now : Moment) (accounts : list SavedAccount) (st : Store) :
  store_wf st →
  ∃ st',
    balancesStep now accounts st = Fulfilled st'
    ∧ store_wf st'
    ∧ (_id <$> st) `prefix_of` (_id <$> st').
Proof.
  intros Hwf. rewrite balancesStep_entries. eexists. split; [done|].
  by apply mapSeries_wf.
Qed.

Lemma balancesStep_store_wf_witness :
  ∃ st',
    balancesStep january1 twins [history2024; history2024bis] = Fulfilled st'
    ∧ store_wf st'.
Proof.
  destruct (balancesStep_store_wf january1 twins [history2024; history2024bis])
    as (st' & Hrun & Hwf & _).
  - apply (bool_decide_unpack _). vm_compute. exact I.
  - exists st'. split; [exact Hrun|exact Hwf].
Defined.

Lemma mapSeries_app (existings : Store) (attrs : list string)
    (entries1 entries2 : list BalanceHistory) (st : Store) :
  mapSeries existings attrs (entries1 ++ entries2) st
  = mapSeries existings attrs entries2 (mapSeries existings attrs entries1 st).
Proof.
  revert st. induction entries1 as [|entry rest IH]; intros st; simpl; [done|].
  apply IH.
Qed.

(** A document of the store that is the first match of no account of the run
    is left where it is. *)
Lemma mapSeries_entries_keeps (now : Moment) (st cur : Store)
    (accounts : list SavedAccount) (i : nat) (doc : BalanceHistory)
    (witnessed : BalanceHistory) :
  store_wf st →
  witnessed ∈ st →
  _id witnessed = _id doc →
  cur !! i = Some doc →
  (∀ account, account ∈ accounts →
     head (matching st (moment_year now) (account_id account)) ≠ Some witnessed) →
  mapSeries st ["_id"] (todaysEntry now st <$> accounts) cur !! i = Some doc.
Proof.
  intros Hwf Hw Hid Hi Hnot. apply mapSeries_keeps; [done|].
  intros entry j u Hentry Hfind Heq.
  apply list_elem_of_fmap in Hentry as (account & -> & Hin).
  apply (Hnot account Hin).
  pose proof (upsert_todaysEntry now st st account Hwf) as Hup.
  unfold upsert in Hup. rewrite Hfind in Hup.
  apply list_find_Some in Hfind as (Hj & Hkey & _).
  assert (Hu : u ∈ st) by (apply list_elem_of_lookup; eauto).
  unfold sameKey in Hkey. rewrite Forall_cons in Hkey. destruct Hkey as [Hkey _].
  unfold todaysEntry, todaysHistory in Hkey. rewrite get_id_mergeBalance in Hkey.
  destruct (store_wf_id st u Hwf Hu) as [id Hu_id].
  apply get_id in Hu_id as Hget. rewrite Hget in Hkey. symmetry in Hkey.
  apply get_id in Hkey.
  destruct (head (matching st _ _)) as [h|] eqn:Hh; simpl in Hkey; [|done].
  f_equal. apply head_matching_elem in Hh as (Hin' & _ & _).
  apply (store_wf_same_id st); [done|done|done|congruence].
Qed.

(** X15.  The balances step writes to first matches only: a stored document
    that is not the first match of the lookup of any account of the run (a
    second document of the same year and account, a document of another
    account or of another year) is left where it is, as it is. *)
Theorem balancesStep_untouched (now : Moment) (accounts : list SavedAccount) (st : Store)
    (i : nat) (doc : BalanceHistory) :
  store_wf st →
  st !! i = Some doc →
  (∀ account, account ∈ accounts →
     head (matching st (moment_year now) (account_id account)) ≠ Some doc) →
  ∃ st', balancesStep now accounts st = Fulfilled st' ∧ st' !! i = Some doc.
Proof.
  intros Hwf Hi Hnot. rewrite balancesStep_entries. eexists. split; [done|].
  apply (mapSeries_entries_keeps now st st accounts i doc doc); try done.
  apply list_elem_of_lookup. eauto.
Qed.

Lemma balancesStep_untouched_witness :
  ∃ st',
    balancesStep june15 [savedAccount "S1" 1 100] [history2024; history2024bis]
    = Fulfilled st'
    ∧ st' !! 1%nat = Some history2024bis.
Proof.
  apply (balancesStep_untouched june15 [savedAccount "S1" 1 100]
           [history2024; history2024bis] 1%nat history2024bis).
  - apply (bool_decide_unpack _). vm_compute. exact I.
  - reflexivity.
  - intros account Hin. apply list_elem_of_singleton in Hin. rewrite Hin.
    vm_compute. discriminate.
Defined.

(** The year, the account and the identifier of a stored document never
    change: at its place the store holds, after the writes of any accounts, a
    document of the same year, account and identifier. *)
Lemma mapSeries_entries_shape (now : Moment) (st : Store) (accounts : list SavedAccount)
    (cur : Store) (i : nat) (doc old : BalanceHistory) :
  store_wf st →
  old ∈ st →
  cur !! i = Some doc →
  _id doc = _id old → year doc = year old → relationships doc = relationships old →
  ∃ doc',
    mapSeries st ["_id"] (todaysEntry now st <$> accounts) cur !! i = Some doc'
    ∧ _id doc' = _id old ∧ year doc' = year old
    ∧ relationships doc' = relationships old.
Proof.
  intros Hwf Hold. revert cur doc.
  induction accounts as [|account rest IH]; intros cur doc Hi Hid Hy Hr; csimpl.
  - by exists doc.
  - rewrite upsert_todaysEntry by done.
    destruct (head (matching st _ _)) as [h|] eqn:Hh.
    + apply head_matching_elem in Hh as (Hin & _ & _).
      destruct (store_wf_id st h Hwf Hin) as [id Hh_id]. rewrite Hh_id.
      destruct (decide (_id doc = Some id)) as [Heq|Hne].
      * assert (h = old) as ->
          by (apply (store_wf_same_id st); [done|done|done|congruence]).
        apply (IH _ (withId id (todaysHistory now account old))); try done.
        unfold updateAttributes. rewrite list_lookup_fmap, Hi. simpl.
        by rewrite decide_True.
      * apply (IH _ doc); try done.
        unfold updateAttributes. rewrite list_lookup_fmap, Hi. simpl.
        by rewrite decide_False.
    + apply (IH _ doc); try done. unfold create. by apply lookup_app_l_Some.
Qed.

Lemma withId_same (id : string) (doc : BalanceHistory) :
  _id doc = Some id → withId id doc = doc.
Proof. destruct doc; simpl. by intros ->. Qed.

Lemma NoDup_account_id (accounts : list SavedAccount) (a b : SavedAccount) :
  NoDup (account_id <$> accounts) → a ∈ accounts → b ∈ accounts →
  account_id a = account_id b → a = b.
Proof.
  intros Hnodup Ha Hb Heq.
  apply list_elem_of_lookup in Ha as [i Hi], Hb as [j Hj].
  assert (i = j) as ->; [|congruence].
  apply (NoDup_lookup (account_id <$> accounts) i j (account_id a)); [done| |].
  - by rewrite list_lookup_fmap, Hi.
  - by rewrite list_lookup_fmap, Hj, Heq.
Qed.

(** With one saved account for each storage identifier, the first match of an
    account holds, after the writes, the history of the account for today. *)
Lemma mapSeries_entries_records (now : Moment) (st : Store)
    (accounts : list SavedAccount) (account : SavedAccount) (i : nat)
    (h : BalanceHistory) :
  store_wf st →
  NoDup (account_id <$> accounts) →
  account ∈ accounts →
  st !! i = Some h →
  head (matching st (moment_year now) (account_id account)) = Some h →
  mapSeries st ["_id"] (todaysEntry now st <$> accounts) st !! i
  = Some (todaysHistory now account h).
Proof.
  intros Hwf Hnodup Hin Hi Hh.
  assert (Hh_in : h ∈ st) by (apply list_elem_of_lookup; eauto).
  destruct (store_wf_id st h Hwf Hh_in) as [id Hid].
  destruct (list_elem_of_split _ _ Hin) as (before & after & ->).
  rewrite fmap_app, mapSeries_app. csimpl.
  destruct (mapSeries_entries_shape now st before st i h h) as (d1 & Hd1 & Hd1_id & _);
    try done.
  rewrite upsert_todaysEntry, Hh, Hid by done.
  apply (mapSeries_entries_keeps now st _ after i _ h); try done.
  - unfold updateAttributes. rewrite list_lookup_fmap, Hd1. simpl.
    rewrite decide_True by congruence.
    by rewrite withId_same.
  - intros other Hother Hhead.
    apply head_matching_elem in Hh as (_ & _ & Ha).
    apply head_matching_elem in Hhead as (_ & _ & Hb).
    rewrite fmap_app, fmap_cons in Hnodup.
    apply NoDup_app in Hnodup as (_ & _ & Hnodup).
    apply NoDup_cons in Hnodup as [Hnotin _].
    apply Hnotin. apply list_elem_of_fmap. exists other. split; [congruence|done].
Qed.

(** What the writes of a run add to the store: the fresh history, with
    today's balance, of an account without match. *)
Lemma mapSeries_entries_new (now : Moment) (st : Store) (accounts : list SavedAccount)
    (cur : Store) (i : nat) (doc : BalanceHistory) :
  store_wf st →
  identifiers st ⊆ identifiers cur →
  mapSeries st ["_id"] (todaysEntry now st <$> accounts) cur !! i = Some doc →
  (length cur ≤ i)%nat →
  ∃ account id,
    account ∈ accounts
    ∧ matching st (moment_year now) (account_id account) = []
    ∧ (id ∉ identifiers st)
    ∧ doc = withId id
              (todaysHistory now account
                 (getEmptyBalanceHistory (moment_year now) (account_id account))).
Proof.
  intros Hwf. revert cur.
  induction accounts as [|account rest IH]; intros cur Hsub Hdoc Hlen; csimpl in *.
  - apply lookup_lt_Some in Hdoc. lia.
  - assert (Hnext : ∀ cur',
              identifiers st ⊆ identifiers cur' → (length cur' ≤ i)%nat →
              mapSeries st ["_id"] (todaysEntry now st <$> rest) cur' !! i = Some doc →
              ∃ account0 id,
                account0 ∈ account :: rest
                ∧ matching st (moment_year now) (account_id account0) = []
                ∧ (id ∉ identifiers st)
                ∧ doc = withId id
                          (todaysHistory now account0
                             (getEmptyBalanceHistory (moment_year now)
                                (account_id account0)))).
    { intros cur' Hsub' Hlen' Hdoc'.
      destruct (IH cur' Hsub' Hdoc' Hlen') as (a & id & Ha & Hrest).
      exists a, id. split; [by right|done]. }
    rewrite upsert_todaysEntry in Hdoc by done.
    destruct (head (matching st _ _)) as [h|] eqn:Hh.
    + destruct (_id h) as [id|]; [|by apply (Hnext cur)].
      apply (Hnext (updateAttributes id (todaysHistory now account h) cur)); [| |done].
      * by rewrite identifiers_updateAttributes.
      * unfold updateAttributes. by rewrite length_fmap.
    + set (created := withId (fresh (identifiers cur))
                        (todaysHistory now account
                           (getEmptyBalanceHistory (moment_year now)
                              (account_id account)))) in *.
      assert (Hfresh : fresh (identifiers cur) ∉ identifiers st).
      { intros Hid. apply (infinite_is_fresh (identifiers cur)). by apply Hsub. }
      destruct (decide (i = length cur)) as [->|Hne].
      * exists account, (fresh (identifiers cur)). split; [by left|].
        split; [by destruct (matching st _ _)|]. split; [done|].
        assert (Hkept : mapSeries st ["_id"] (todaysEntry now st <$> rest)
                          (create (todaysHistory now account
                                     (getEmptyBalanceHistory (moment_year now)
                                        (account_id account))) cur)
                        !! length cur = Some created).
        { apply mapSeries_keeps.
          - unfold create. by rewrite lookup_app_r, Nat.sub_diag by lia.
          - intros e j u _ Hfind Hu. simpl in Hu. apply Hfresh.
            apply list_find_Some in Hfind as (Hj & _ & _).
            apply identifiers_elem_of. exists u. split; [|done].
            apply list_elem_of_lookup. eauto. }
        rewrite Hdoc in Hkept. by injection Hkept as ->.
      * apply (Hnext (create (todaysHistory now account
                                (getEmptyBalanceHistory (moment_year now)
                                   (account_id account))) cur)); [| |done].
        -- etrans; [exact Hsub|]. unfold create, identifiers. rewrite omap_app.
           set_solver.
        -- unfold create. rewrite length_app. simpl. lia.
Qed.

Lemma head_filter_lookup {A} (P : A → Prop) `{!∀ x, Decision (P x)} (l : list A) (x : A) :
  head (filter P l) = Some x
  ↔ ∃ i, l !! i = Some x ∧ P x ∧ ∀ j y, (j < i)%nat → l !! j = Some y → ¬ P y.
Proof.
  induction l as [|a l IH].
  - split; [done|]. by intros (i & Hi & _).
  - rewrite filter_cons. destruct (decide (P a)) as [Ha|Ha]; simpl.
    + split.
      * intros [= <-]. exists 0%nat. split; [done|]. split; [done|]. intros; lia.
      * intros (i & Hi & Hx & Hbefore). destruct i as [|i]; [by injection Hi as ->|].
        destruct (Hbefore 0%nat a); [lia|done|done].
    + rewrite IH. split.
      * intros (i & Hi & Hx & Hbefore). exists (S i). split; [done|]. split; [done|].
        intros [|j] y Hj Hy; [by injection Hy as <-|].
        apply (Hbefore j); [lia|done].
      * intros (i & Hi & Hx & Hbefore). destruct i as [|i]; [by injection Hi as ->|].
        exists i. split; [done|]. split; [done|].
        intros j y Hj Hy. apply (Hbefore (S j)); [lia|done].
Qed.

Lemma satisfies_same_year_account (y : Z) (a : string) (d1 d2 : BalanceHistory) :
  year d1 = year d2 → relationships d1 = relationships d2 →
  satisfies (selector (balanceHistoryOptions y a)) d1 →
  satisfies (selector (balanceHistoryOptions y a)) d2.
Proof.
  intros Hy Hr. rewrite !satisfies_balanceHistoryOptions. by rewrite Hy, Hr.
Qed.

(** After the writes of a run with one saved account for each storage
    identifier, the first match of each account is its history for today. *)
Lemma mapSeries_entries_heads (now : Moment) (st : Store) (accounts : list SavedAccount)
    (account : SavedAccount) :
  store_wf st →
  NoDup (account_id <$> accounts) →
  account ∈ accounts →
  match head (matching st (moment_year now) (account_id account)) with
  | Some h =>
      head (matching (mapSeries st ["_id"] (todaysEntry now st <$> accounts) st)
              (moment_year now) (account_id account))
      = Some (todaysHistory now account h)
  | None =>
      ∃ id,
        (id ∉ identifiers st)
        ∧ head (matching (mapSeries st ["_id"] (todaysEntry now st <$> accounts) st)
                  (moment_year now) (account_id account))
          = Some (withId id
                    (todaysHistory now account
                       (getEmptyBalanceHistory (moment_year now) (account_id account))))
  end.
Proof.
  intros Hwf Hnodup Hin.
  set (st' := mapSeries st ["_id"] (todaysEntry now st <$> accounts) st).
  assert (Hold : ∀ j y y',
            st !! j = Some y → st' !! j = Some y' →
            year y' = year y ∧ relationships y' = relationships y).
  { intros j y y' Hj Hj'.
    destruct (mapSeries_entries_shape now st accounts st j y y)
      as (y'' & Hy'' & _ & Hyear & Hrel); try done.
    - apply list_elem_of_lookup. eauto.
    - fold st' in Hy''. rewrite Hj' in Hy''. by injection Hy'' as ->. }
  destruct (head (matching st _ _)) as [h|] eqn:Hh.
  - pose proof Hh as Hhead.
    unfold matching in Hh. apply head_filter_lookup in Hh as (i & Hi & Hsat & Hbefore).
    unfold matching. apply head_filter_lookup. exists i.
    split; [by apply mapSeries_entries_records|].
    split; [by apply (satisfies_same_year_account _ _ h)|].
    intros j y' Hj Hy' Hsat'.
    destruct (lookup_lt_is_Some_2 st j) as [y Hy];
      [apply lookup_lt_Some in Hi; lia|].
    destruct (Hold j y y' Hy Hy') as [Hyear Hrel].
    apply (Hbefore j y Hj Hy). by apply (satisfies_same_year_account _ _ y').
  - assert (Hnone : matching st (moment_year now) (account_id account) = [])
      by (by destruct (matching st _ _)).
    destruct (mapSeries_creates st ["_id"] (todaysEntry now st <$> accounts) st
                (todaysEntry now st account)) as (id0 & _ & Hcreated).
    { apply list_elem_of_fmap. by exists account. }
    { unfold todaysEntry. rewrite Hnone. by apply no_target_without_id. }
    { done. }
    fold st' in Hcreated.
    destruct (head (matching st' (moment_year now) (account_id account)))
      as [d1|] eqn:Hd1.
    + unfold matching in Hd1. apply head_filter_lookup in Hd1 as (i & Hi & Hsat & _).
      destruct (decide (i < length st)%nat) as [Hlt|Hge].
      * destruct (lookup_lt_is_Some_2 st i Hlt) as [y Hy].
        destruct (Hold i y d1 Hy Hi) as [Hyear Hrel].
        assert (Hy_in : y ∈ matching st (moment_year now) (account_id account)).
        { unfold matching. apply list_elem_of_filter. split.
          - by apply (satisfies_same_year_account _ _ d1).
          - apply list_elem_of_lookup. eauto. }
        rewrite Hnone in Hy_in. by apply elem_of_nil in Hy_in.
      * destruct (mapSeries_entries_new now st accounts st i d1)
          as (other & id & Hother & _ & Hfresh & ->); [done|done|done|lia|].
        apply satisfies_balanceHistoryOptions in Hsat as [_ Hsame]. simpl in Hsame.
        assert (other = account) as -> by (by apply (NoDup_account_id accounts)).
        by exists id.
    + assert (Hin' : withId id0 (todaysEntry now st account)
                     ∈ matching st' (moment_year now) (account_id account)).
      { apply matching_spec. split; [done|]. unfold todaysEntry. by rewrite Hnone. }
      destruct (matching st' _ _); [by apply elem_of_nil in Hin'|done].
Qed.

(** X16.  A run records today's balance of every account.  In a well-formed
    store, when the saved accounts have distinct storage identifiers, after
    the balances step the lookup of each account finds first: the document
    that it found before the run, with the same identifier and the same
    entries for the other days, and today's balance of the account, when
    there was one; a new document under an identifier that was not in use,
    whose only entry is today's balance of the account, when there was
    none. *)
Theorem balancesStep_records (now : Moment) (accounts : list SavedAccount) (st : Store) :
  store_wf st →
  NoDup (account_id <$> accounts) →
  ∃ st',
    balancesStep now accounts st = Fulfilled st'
    ∧ recorded now accounts st'
    ∧ ∀ account, account ∈ accounts →
        match head (matching st (moment_year now) (account_id account)) with
        | Some h =>
            head (matching st' (moment_year now) (account_id account))
            = Some (mergeBalance h (format_YYYY_MM_DD now)
                      (balance (account_fields account)))
        | None =>
            ∃ id,
              (id ∉ identifiers st)
              ∧ head (matching st' (moment_year now) (account_id account))
                = Some {| _id := Some id;
                          year := moment_year now;
                          balances :=
                            {[ format_YYYY_MM_DD now
                               := balance (account_fields account) ]};
                          metadata := {| version := 1 |};
                          relationships :=
                            {| data_id := account_id account;
                               data_type := "io.cozy.bank.accounts" |} |}
        end.
Proof.
  intros Hwf Hnodup. rewrite balancesStep_entries. eexists. split; [done|].
  assert (Hheads := fun account Hin =>
            mapSeries_entries_heads now st accounts account Hwf Hnodup Hin).
  split.
  - intros account Hin. specialize (Hheads account Hin).
    destruct (head (matching st _ _)) as [h|] eqn:Hh.
    + eexists. split; [exact Hheads|].
      apply head_matching_elem in Hh as (Hh_in & _ & _).
      split; [exact (store_wf_id st h Hwf Hh_in)|]. apply lookup_insert_eq.
    + destruct Hheads as (id & _ & Hhead). eexists. split; [exact Hhead|].
      split; [by eexists|]. apply lookup_insert_eq.
  - intros account Hin. specialize (Hheads account Hin).
    destruct (head (matching st _ _)) as [h|]; [done|].
    destruct Hheads as (id & Hfresh & Hhead). exists id. split; [done|].
    rewrite Hhead. unfold withId, todaysHistory, mergeBalance; simpl.
    by rewrite insert_empty.
Qed.

Lemma balancesStep_records_witness :
  ∃ st',
    balancesStep june15 [savedAccount "S1" 1 100; savedAccount "S2" 2 50]
      [history2024; history2024bis] = Fulfilled st'
    ∧ recorded june15 [savedAccount "S1" 1 100; savedAccount "S2" 2 50] st'.
Proof.
  destruct (balancesStep_records june15 [savedAccount "S1" 1 100; savedAccount "S2" 2 50]
              [history2024; history2024bis]) as (st' & Hrun & Hrecorded & _).
  - apply (bool_decide_unpack _). vm_compute. exact I.
  - apply (bool_decide_unpack _). vm_compute. exact I.
  - exists st'. split; [exact Hrun|exact Hrecorded].
Defined.

Lemma updateAttributes_same (st : Store) (id : string) (doc : BalanceHistory) :
  store_wf st → doc ∈ st → _id doc = Some id →
  updateAttributes id doc st = st.
Proof.
  intros Hwf Hdoc Hid. unfold updateAttributes.
  rewrite <- (list_fmap_id st) at 2.
  apply list_fmap_ext. intros i x Hx. simpl.
  destruct (decide (_id x = Some id)) as [Heq|]; [|done].
  rewrite withId_same by done.
  apply (store_wf_same_id st); [done|done| |congruence].
  apply list_elem_of_lookup. eauto.
Qed.

Lemma mergeBalance_same (doc : BalanceHistory) (today : string) (b : Z) :
  balances doc !! today = Some b → mergeBalance doc today b = doc.
Proof.
  intros Hb. destruct doc as [id y bs m r]; unfold mergeBalance; simpl in *.
  by rewrite insert_id.
Qed.

(** On a store that already records today's balances, the writes of a run
    change nothing. *)
Lemma mapSeries_entries_fixed (now : Moment) (st : Store) (accounts : list SavedAccount) :
  store_wf st →
  recorded now accounts st →
  mapSeries st ["_id"] (todaysEntry now st <$> accounts) st = st.
Proof.
  intros Hwf. induction accounts as [|account rest IH]; intros Hrec; csimpl; [done|].
  destruct (Hrec account) as (doc & Hhead & [id Hid] & Hb); [by left|].
  rewrite upsert_todaysEntry, Hhead, Hid by done.
  unfold todaysHistory. rewrite mergeBalance_same by done.
  apply head_matching_elem in Hhead as (Hin & _ & _).
  rewrite updateAttributes_same by done.
  apply IH. intros a Ha. apply Hrec. by right.
Qed.

(** X17.  A second run on the same day changes nothing.  In a well-formed
    store, when the saved accounts have distinct storage identifiers, the
    balances step run once more with the same date and the same accounts on
    the store that the first run left, leaves this very store: no document is
    added, no entry is added or altered. *)
Theorem balancesStep_twice (now : Moment) (accounts : list SavedAccount) (st : Store) :
  store_wf st →
  NoDup (account_id <$> accounts) →
  ∃ st',
    balancesStep now accounts st = Fulfilled st'
    ∧ balancesStep now accounts st' = Fulfilled st'.
Proof.
  intros Hwf Hnodup. rewrite balancesStep_entries. eexists. split; [done|].
  rewrite balancesStep_entries. f_equal.
  apply mapSeries_entries_fixed; [by apply mapSeries_wf|].
  intros account Hin.
  pose proof (mapSeries_entries_heads now st accounts account Hwf Hnodup Hin) as Hhead.
  destruct (head (matching st _ _)) as [h|] eqn:Hh.
  - eexists. split; [exact Hhead|].
    apply head_matching_elem in Hh as (Hh_in & _ & _).
    split; [exact (store_wf_id st h Hwf Hh_in)|]. apply lookup_insert_eq.
  - destruct Hhead as (id & _ & Hhead). eexists. split; [exact Hhead|].
    split; [by eexists|]. apply lookup_insert_eq.
Qed.

Lemma balancesStep_twice_witness :
  ∃ st',
    balancesStep january1 [savedAccount "S1" 1 100; savedAccount "S2" 2 50]
      [history2024; history2024bis] = Fulfilled st'
    ∧ balancesStep january1 [savedAccount "S1" 1 100; savedAccount "S2" 2 50] st'
      = Fulfilled st'.
Proof.
  apply (balancesStep_twice january1 [savedAccount "S1" 1 100; savedAccount "S2" 2 50]
           [history2024; history2024bis]).
  - apply (bool_decide_unpack _). vm_compute. exact I.
  - apply (bool_decide_unpack _). vm_compute. exact I.
Defined.

(** With two saved accounts under one storage identifier the second run does
    change the store: the first run created a document for each, the second
    writes both balances to the first of them. *)
Example balancesStep_twice_twins :
  (let! st' := balancesStep january1 twins [history2024] in
   balancesStep january1 twins st')
  ≠ balancesStep january1 twins [history2024].
Proof. vm_compute. discriminate. Qed.

Lemma mapSeries_entries_length (now : Moment) (st : Store) (accounts : list SavedAccount)
    (cur : Store) :
  store_wf st →
  length (mapSeries st ["_id"] (todaysEntry now st <$> accounts) cur)
  = (length cur
     + length (filter (fun account =>
                         matching st (moment_year now) (account_id account) = [])
                      accounts))%nat.
Proof.
  intros Hwf. revert cur. induction accounts as [|account rest IH]; intros cur; csimpl.
  - lia.
  - rewrite IH, upsert_todaysEntry, filter_cons by done.
    destruct (decide (matching st (moment_year now) (account_id account) = []))
      as [Hm|Hm].
    + rewrite Hm. simpl. unfold create. rewrite length_app. simpl. lia.
    + destruct (matching st (moment_year now) (account_id account)) as [|h others];
        [done|]. simpl.
      destruct (_id h); [|lia]. unfold updateAttributes. rewrite length_fmap. lia.
Qed.

(** X18.  The documents that a run creates.  In a well-formed store the
    balances step adds one document for each saved account whose lookup
    finds none, and no other: the store grows by the number of these
    accounts, two saved accounts under one storage identifier counting
    twice. *)
Theorem balancesStep_length (now : Moment) (accounts : list SavedAccount) (st : Store) :
  store_wf st →
  ∃ st',
    balancesStep now accounts st = Fulfilled st'
    ∧ length st'
      = (length st
         + length (filter (fun account =>
                             matching st (moment_year now) (account_id account) = [])
                          accounts))%nat.
Proof.
  intros Hwf. rewrite balancesStep_entries. eexists. split; [done|].
  by apply mapSeries_entries_length.
Qed.

Lemma balancesStep_length_witness :
  ∃ st',
    balancesStep january1 twins [history2024] = Fulfilled st'
    ∧ length st' = 3%nat.
Proof.
  destruct (balancesStep_length january1 twins [history2024]) as (st' & Hrun & Hlen).
  - apply (bool_decide_unpack _). vm_compute. exact I.
  - exists st'. split; [exact Hrun|]. rewrite Hlen. vm_compute. reflexivity.
Defined.
